(** * sienna_grabber: the crawl loop of [vehicles.py]

    A shallow embedding of [src/sienna_grabber/vehicles.py]: the cached
    query builder [get_vehicles_query], the page fetcher [query_toyota],
    the crawl loop [get_all_pages], the entry point [update_vehicles] and
    the option formatter [format_options].

    Everything the Python code obtains from outside (the query template
    on disk, [uuid.uuid4], [WAFBypass().run()], [timer()], [requests.post],
    the outcome of the two writers) is read from an oracle [Env], indexed
    by the number of earlier calls of the same kind; the calls made are
    counted and logged in [World]. The [print] calls are left out. *)

From Stdlib Require Import QArith Qround Qpower.
From Stdlib Require Import DecimalString.
From stdpp Require Import base list strings gmap sorting.

Local Open Scope string_scope.
Local Open Scope list_scope.
Local Open Scope nat_scope.

(** ** Python strings *)

Module PyStr.

(** [str(n)] for a non-negative integer. *)
Definition str (n : nat) : string := NilZero.string_of_uint (Nat.to_uint n).

(** Truthiness of a string: the empty string is falsy. *)
Definition truthy (s : string) : bool :=
  match s with EmptyString => false | String _ _ => true end.

(** Truthiness of [os.environ.get(..)] and [dict.get(..)] results:
    [None] and the empty string are falsy. *)
Definition opt_truthy (o : option string) : bool :=
  match o with None => false | Some s => truthy s end.

(** Scan of [str.replace] for a non-empty pattern: [skip] characters
    of an occurrence already replaced remain to be dropped. *)
Fixpoint replace_scan (old new : string) (skip : nat) (s : string) : string :=
  match s with
  | EmptyString => EmptyString
  | String c s' =>
      match skip with
      | S k => replace_scan old new k s'
      | O =>
          if String.prefix old s
          then new +:+ replace_scan old new (String.length old - 1) s'
          else String c (replace_scan old new 0 s')
      end
  end.

Fixpoint intersperse_all (new s : string) : string :=
  match s with
  | EmptyString => EmptyString
  | String c s' => String c (new +:+ intersperse_all new s')
  end.

(** [s.replace(old, new)]: every non-overlapping occurrence, leftmost
    first; an empty pattern matches before every character and at the
    end. *)
Definition replace (old new s : string) : string :=
  match old with
  | EmptyString => new +:+ intersperse_all new s
  | String _ _ => replace_scan old new 0 s
  end.

(** [sep.join(parts)]. *)
Fixpoint join (sep : string) (parts : list string) : string :=
  match parts with
  | [] => EmptyString
  | [p] => p
  | p :: rest => p +:+ sep +:+ join sep rest
  end.

End PyStr.

(** ** Python floats *)

(** A [float] is a binary64 number; it is modelled by the rational it
    stands for. Subtraction gives the float nearest to the exact
    difference, the one with an even last bit when two are equally near.
    Overflow and subnormal numbers are left out: the readings of a clock
    in seconds and their differences are far from both. *)
Module Float.

(** [2 ** k]. *)
Definition pow2 (k : Z) : Q := Qpower (inject_Z 2) k.

(** The integer nearest to [x], the even one of two equally near. *)
Definition round_half_even (x : Q) : Z :=
  let below := Qfloor x in
  match Qcompare (Qminus x (inject_Z below)) (1 # 2) with
  | Lt => below
  | Gt => (below + 1)%Z
  | Eq => if Z.even below then below else (below + 1)%Z
  end.

(** The [e] with [2 ** e <= x < 2 ** (e + 1)], for a positive [x]. *)
Definition exponent (x : Q) : Z :=
  let e := (Z.log2 (Qnum x) - Z.log2 (Zpos (Qden x)))%Z in
  if Qle_bool (pow2 e) x then e else (e - 1)%Z.

(** The float nearest to a positive [x]: 53 significant bits. *)
Definition round_positive (x : Q) : Q :=
  let e := exponent x in
  Qmult (inject_Z (round_half_even (Qmult x (pow2 (52 - e))))) (pow2 (e - 52)).

(** The float nearest to [x]. *)
Definition round (x : Q) : Q :=
  match Qcompare x (inject_Z 0) with
  | Eq => inject_Z 0
  | Gt => round_positive x
  | Lt => Qopp (round_positive (Qopp x))
  end.

(** [a - b]. *)
Definition sub (a b : Q) : Q := round (Qminus a b).

End Float.

(** ** Data model *)

(** The header dictionary captured by the WAF bypass. *)
Definition Headers := list (string * string).

(** One entry of a vehicle's [options] list. A field is [None] when the
    key is absent or null: [item.get] returns [None] in both cases. *)
Record OptionEntry := {
  marketingName : option string;
  marketingLongName : option string
}.

(** One element of [vehicleSummary], a row of the data frame after
    [pd.json_normalize]: the [vin] column (every record of the API has
    one), the [options] column and the remaining flattened columns. *)
Record Vehicle := {
  vin : string;
  options : list OptionEntry;
  columns : list (string * string)
}.

(** The data frame: its rows in order. *)
Definition DataFrame := list Vehicle.

(** The value under [data.locateVehiclesByZip] when it is a JSON object:
    the record list under "vehicleSummary", if the key is there, and the
    names of the other keys (pagination and the like). The value of the
    key is a list of records, as the API sends it; a "vehicleSummary"
    that is null or not a list, on which [pd.json_normalize] raises, is
    not modelled. *)
Record LocateResult := {
  vehicleSummary : option (list Vehicle);
  other_keys : list string
}.

(** What [resp.json()["data"]["locateVehiclesByZip"]] evaluates to, for
    the bodies modelled: those without the envelope and those where the
    value is null or an object. A number, a boolean, a string or an
    array in that place is not modelled (on a number other than 0 and on
    [true], line 69 raises [TypeError]). *)
Inductive ResponseBody :=
  | NoEnvelope
      (* the body is not JSON (a challenge page, an access denial) or
         one of the two subscripts fails: the [except] branch *)
  | LocateVehiclesByZip (result : option LocateResult)
      (* [None] is JSON null *).

(** What [requests.post] does. *)
Inductive HttpOutcome :=
  | HttpRaises
      (* timeout, connection error: [requests.post] raises *)
  | HttpResponse (body : ResponseBody).

(** ** Exceptions *)

Inductive Exn :=
  | OSError            (* a file cannot be read or written *)
  | TypeError          (* [str.replace] with [None] *)
  | WafError           (* [WAFBypass().run()] raises *)
  | RequestException   (* [requests.post] raises *)
  | KeyError           (* a column asked for is not in the frame *)
  | SystemExit (msg : string).

(** ** The outside world *)

Record Env := {
  (* module globals, read from the environment at import *)
  MODEL : option string;
  ZIPCODE : option string;
  DISTANCE : option string;
  (* the n-th read of graphql/vehicles.graphql; [None] when it raises *)
  env_file : nat -> option string;
  (* the n-th [str(uuid.uuid4())] *)
  env_uuid4 : nat -> string;
  (* the n-th [WAFBypass().run()]; [None] when it raises *)
  env_waf : nat -> option Headers;
  (* the n-th [timer()], in seconds: the number the float stands for *)
  env_timer : nat -> Q;
  (* the n-th [requests.post], given the query sent and the headers *)
  env_post : nat -> string -> Headers -> HttpOutcome;
  (* [to_json_raw] and [to_csv_simple] on a frame: the exception raised,
     which depends on the columns of the frame and on the output
     directory, or [None] when the file is written *)
  env_to_json_raw : DataFrame -> option Exn;
  env_to_csv_simple : DataFrame -> option Exn
}.

Inductive Event :=
  | EvReadQuery
  | EvWaf
  | EvPost (query : string) (headers : Headers)
  | EvSleep (seconds : nat)
  | EvToJsonRaw (df : DataFrame)
  | EvToCsvSimple (df : DataFrame).

Record World := {
  (* the memo cell that [functools.cache] keeps for [get_vehicles_query] *)
  query_cache : option string;
  n_file : nat;
  n_uuid : nat;
  n_waf : nat;
  n_timer : nat;
  n_post : nat;
  (* the calls made so far, latest first *)
  trace : list Event
}.

Definition initial_world : World :=
  {| query_cache := None; n_file := 0; n_uuid := 0; n_waf := 0;
     n_timer := 0; n_post := 0; trace := [] |}.

(** ** The monad of effects *)

Inductive Outcome (A : Type) :=
  | Returned (a : A)
  | Raised (e : Exn)
  | OutOfFuel.
Arguments Returned {A} a.
Arguments Raised {A} e.
Arguments OutOfFuel {A}.

Definition M (A : Type) : Type := World -> Outcome A * World.

Definition ret {A} (a : A) : M A := fun w => (Returned a, w).

Definition bind {A B} (c : M A) (k : A -> M B) : M B :=
  fun w =>
    match c w with
    | (Returned a, w') => k a w'
    | (Raised e, w') => (Raised e, w')
    | (OutOfFuel, w') => (OutOfFuel, w')
    end.

Definition raise {A} (e : Exn) : M A := fun w => (Raised e, w).

Declare Scope py_scope.
Delimit Scope py_scope with py.
Notation "x <- c ;; k" := (bind c (fun x => k))
  (at level 100, c at next level, right associativity) : py_scope.
Notation "c ;; k" := (bind c (fun _ => k))
  (at level 100, right associativity) : py_scope.
Local Open Scope py_scope.

(** Changes of the world: an event logged, a call counted, a value
    memoised. *)
Definition log (e : Event) (w : World) : World :=
  {| query_cache := query_cache w; n_file := n_file w; n_uuid := n_uuid w;
     n_waf := n_waf w; n_timer := n_timer w; n_post := n_post w;
     trace := e :: trace w |}.

Definition count_file (w : World) : World :=
  {| query_cache := query_cache w; n_file := S (n_file w); n_uuid := n_uuid w;
     n_waf := n_waf w; n_timer := n_timer w; n_post := n_post w;
     trace := trace w |}.

Definition count_uuid (w : World) : World :=
  {| query_cache := query_cache w; n_file := n_file w; n_uuid := S (n_uuid w);
     n_waf := n_waf w; n_timer := n_timer w; n_post := n_post w;
     trace := trace w |}.

Definition count_waf (w : World) : World :=
  {| query_cache := query_cache w; n_file := n_file w; n_uuid := n_uuid w;
     n_waf := S (n_waf w); n_timer := n_timer w; n_post := n_post w;
     trace := trace w |}.

Definition count_timer (w : World) : World :=
  {| query_cache := query_cache w; n_file := n_file w; n_uuid := n_uuid w;
     n_waf := n_waf w; n_timer := S (n_timer w); n_post := n_post w;
     trace := trace w |}.

Definition count_post (w : World) : World :=
  {| query_cache := query_cache w; n_file := n_file w; n_uuid := n_uuid w;
     n_waf := n_waf w; n_timer := n_timer w; n_post := S (n_post w);
     trace := trace w |}.

Definition memoise (q : string) (w : World) : World :=
  {| query_cache := Some q; n_file := n_file w; n_uuid := n_uuid w;
     n_waf := n_waf w; n_timer := n_timer w; n_post := n_post w;
     trace := trace w |}.

(** ** Primitive effects *)

Section Program.

Variable E : Env.

(** [open(..).read()] of the query template. *)
Definition read_query_file : M string := fun w =>
  let w' := log EvReadQuery (count_file w) in
  match env_file E (n_file w) with
  | Some text => (Returned text, w')
  | None => (Raised OSError, w')
  end.

(** [str(uuid.uuid4())]. *)
Definition uuid4 : M string := fun w =>
  (Returned (env_uuid4 E (n_uuid w)), count_uuid w).

(** [wafbypass.WAFBypass().run()]. *)
Definition waf_run : M Headers := fun w =>
  let w' := log EvWaf (count_waf w) in
  match env_waf E (n_waf w) with
  | Some headers => (Returned headers, w')
  | None => (Raised WafError, w')
  end.

(** [timer()]. *)
Definition timer : M Q := fun w =>
  (Returned (env_timer E (n_timer w)), count_timer w).

(** [requests.post(url, json={"query": query}, headers=headers, timeout=15)]:
    the response body, or the exception it raises. *)
Definition requests_post (query : string) (headers : Headers) : M ResponseBody :=
  fun w =>
    let w' := log (EvPost query headers) (count_post w) in
    match env_post E (n_post w) query headers with
    | HttpResponse body => (Returned body, w')
    | HttpRaises => (Raised RequestException, w')
    end.

(** [sleep(seconds)]. *)
Definition sleep (seconds : nat) : M unit := fun w =>
  (Returned tt, log (EvSleep seconds) w).

(** ** [get_vehicles_query] *)

(** [query.replace(old, value)] where [value] is a module global:
    [None] is not a string. *)
Definition replace_global (old : string) (value : option string) (query : string)
  : M string :=
  match value with
  | Some v => ret (PyStr.replace old v query)
  | None => raise TypeError
  end.

(** The body of [get_vehicles_query], lines 26-35. *)
Definition get_vehicles_query_body : M string :=
  query <- read_query_file ;;
  query <- replace_global "ZIPCODE" (ZIPCODE E) query ;;
  query <- replace_global "MODELCODE" (MODEL E) query ;;
  query <- replace_global "DISTANCEMILES" (DISTANCE E) query ;;
  lead_id <- uuid4 ;;
  ret (PyStr.replace "LEADIDUUID" lead_id query).

(** [@cache] on a function without arguments: the first value returned
    is stored and returned by every later call; a call that raises
    stores nothing. *)
Definition cache (body : M string) : M string := fun w =>
  match query_cache w with
  | Some q => (Returned q, w)
  | None =>
      match body w with
      | (Returned q, w') => (Returned q, memoise q w')
      | other => other
      end
  end.

Definition get_vehicles_query : M string := cache get_vehicles_query_body.

(** ** [query_toyota] *)

(** [not result] for the value under [locateVehiclesByZip]: null and the
    empty object are falsy. *)
Definition result_truthy (result : option LocateResult) : bool :=
  match result with
  | None => false
  | Some r =>
      match vehicleSummary r, other_keys r with
      | None, [] => false
      | _, _ => true
      end
  end.

(** ["vehicleSummary" in result], for a result that is an object. *)
Definition has_vehicleSummary (result : option LocateResult) : bool :=
  match result with
  | Some r => match vehicleSummary r with Some _ => true | None => false end
  | None => false
  end.

Definition query_toyota (page_number : nat) (query : string) (headers : Headers)
  : M (option LocateResult) :=
  let query := PyStr.replace "PAGENUMBER" (PyStr.str page_number) query in
  resp <- requests_post query headers ;;
  match resp with
  | NoEnvelope => ret None
  | LocateVehiclesByZip result =>
      if negb (result_truthy result) || negb (has_vehicleSummary result)
      then ret None
      else ret result
  end.

(** ** The data frame operations used by the crawl loop *)

(** [pd.json_normalize(records)]: one row per record, in order. *)
Definition json_normalize (records : list Vehicle) : DataFrame := records.

(** [pd.concat([df, rows])]. *)
Definition concat (df rows : DataFrame) : DataFrame := df ++ rows.

(** Rows whose [vin] has not been seen earlier in the frame. *)
Fixpoint keep_first (seen : list string) (df : DataFrame) : DataFrame :=
  match df with
  | [] => []
  | row :: rest =>
      if bool_decide (vin row ∈ seen)
      then keep_first seen rest
      else row :: keep_first (vin row :: seen) rest
  end.

(** [df.drop_duplicates(subset=["vin"], inplace=True)]: pandas' default
    [keep="first"] keeps the first row of every [vin]. *)
Definition drop_duplicates (df : DataFrame) : DataFrame := keep_first [] df.

(** ** [get_all_pages] *)

(** The local variables of [get_all_pages] that the loop changes. *)
Record Locals := {
  df : DataFrame;
  page_number : nat;
  headers : Headers;
  timer_start : Q;
  last_run_counter : nat
}.


(** [elapsed_time > 4 * 60]. *)
Definition renewal_threshold : Q := inject_Z (4 * 60).

Definition refresh_due (elapsed_time : Q) : bool :=
  negb (Qle_bool elapsed_time renewal_threshold).

(** Lines 99-104: refresh the WAF bypass when it is about four minutes
    old. [timer() - timer_start] is a subtraction of floats. *)
Definition refresh_waf (st : Locals) : M Locals :=
  now <- timer ;;
  let elapsed_time := Float.sub now (timer_start st) in
  if refresh_due elapsed_time then
    new_headers <- waf_run ;;
    new_start <- timer ;;
    ret {| df := df st; page_number := page_number st;
           headers := new_headers; timer_start := new_start;
           last_run_counter := last_run_counter st |}
  else ret st.

(** Lines 114-117: append the rows of a usable result, then drop
    duplicate VINs. *)
Definition merge_page (df : DataFrame) (result : option LocateResult) : DataFrame :=
  let df :=
    if result_truthy result && has_vehicleSummary result then
      match result with
      | Some r =>
          match vehicleSummary r with
          | Some records => concat df (json_normalize records)
          | None => df
          end
      | None => df
      end
    else df in
  drop_duplicates df.

(** One pass through the body of [while True]: [inr df] is a [break]
    (followed by [return df]), [inl st] reaches [continue]. *)
Definition loop_body (query : string) (st : Locals) : M (Locals + DataFrame) :=
  if 40 <? page_number st then ret (inr (df st))
  else
    st <- refresh_waf st ;;
    result <- query_toyota (page_number st) query (headers st) ;;
    let df' := merge_page (df st) result in
    if length df' =? last_run_counter st then ret (inr df')
    else
      sleep 10 ;;
      ret (inl {| df := df'; page_number := page_number st + 1;
                  headers := headers st; timer_start := timer_start st;
                  last_run_counter := length df' |}).

(** [while True]: [fuel] bounds the number of passes. *)
Fixpoint while_true (fuel : nat) (query : string) (st : Locals) : M DataFrame :=
  match fuel with
  | O => fun w => (OutOfFuel, w)
  | S fuel' =>
      next <- loop_body query st ;;
      match next with
      | inr df => ret df
      | inl st' => while_true fuel' query st'
      end
  end.

Definition get_all_pages (fuel : nat) : M DataFrame :=
  query <- get_vehicles_query ;;
  headers <- waf_run ;;
  timer_start <- timer ;;
  while_true fuel query
    {| df := []; page_number := 1; headers := headers;
       timer_start := timer_start; last_run_counter := 0 |}.

(** ** [update_vehicles] *)

Definition sys_exit {A} (msg : string) : M A := raise (SystemExit msg).

(** [to_json_raw(df)] and [to_csv_simple(df)] hand the frame to the
    writers, which write their file or raise; what they write is not
    modelled. *)
Definition to_json_raw (df : DataFrame) : M unit := fun w =>
  let w' := log (EvToJsonRaw df) w in
  match env_to_json_raw E df with
  | None => (Returned tt, w')
  | Some e => (Raised e, w')
  end.

Definition to_csv_simple (df : DataFrame) : M unit := fun w =>
  let w' := log (EvToCsvSimple df) w in
  match env_to_csv_simple E df with
  | None => (Returned tt, w')
  | Some e => (Raised e, w')
  end.

Definition update_vehicles (fuel : nat) : M unit :=
  if negb (PyStr.opt_truthy (MODEL E))
  then sys_exit "Set the MODEL environment variable first"
  else if negb (PyStr.opt_truthy (ZIPCODE E))
  then sys_exit "Set the ZIPCODE environment variable first"
  else if negb (PyStr.opt_truthy (DISTANCE E))
  then sys_exit "Set the DISTANCE environment variable first"
  else
    df <- get_all_pages fuel ;;
    match df with
    | [] => ret tt
    | _ :: _ => to_json_raw df ;; to_csv_simple df
    end.

End Program.

(** ** [format_options] *)

(** [options.add(value)] for the result of an [item.get]. *)
Definition set_add (options : gset string) (value : option string) : gset string :=
  match value with
  | Some name => options ∪ {[ name ]}
  | None => options
  end.

(** The [for] loop over [options_raw], adding to the set [options]. *)
Fixpoint collect_options (options : gset string) (options_raw : list OptionEntry)
  : gset string :=
  match options_raw with
  | [] => options
  | item :: rest =>
      if PyStr.opt_truthy (marketingName item)
      then collect_options (set_add options (marketingName item)) rest
      else if PyStr.opt_truthy (marketingLongName item)
      then collect_options (set_add options (marketingLongName item)) rest
      else collect_options options rest
  end.

(** [sorted(options)]: ascending in the order of [str], which compares
    character codes. *)
Definition sorted (options : gset string) : list string :=
  merge_sort String.le (elements options).

Definition format_options (options_raw : list OptionEntry) : string :=
  PyStr.join " | " (sorted (collect_options ∅ options_raw)).

(** ** Vocabulary of the statements *)

(** The VIN column of a frame. *)
Definition vins (df : DataFrame) : list string := vin <$> df.

(** The records a fetched page contributes to the frame. *)
Definition page_records (result : option LocateResult) : list Vehicle :=
  match result with
  | Some r => default [] (vehicleSummary r)
  | None => []
  end.

(** The queries posted, latest first. *)
Fixpoint posted (tr : list Event) : list string :=
  match tr with
  | [] => []
  | EvPost query _ :: rest => query :: posted rest
  | _ :: rest => posted rest
  end.

(** What holds of the locals whenever the loop body is entered: the
    frame has no duplicate VIN and [last_run_counter] is its length. *)
Definition loop_inv (st : Locals) : Prop :=
  NoDup (vins (df st)) ∧ last_run_counter st = length (df st).

(** The locals on entry to the loop. *)
Definition loop_entry (headers : Headers) (timer_start : Q) : Locals :=
  {| df := []; page_number := 1; headers := headers;
     timer_start := timer_start; last_run_counter := 0 |}.

(** The locals and worlds with which the loop body is entered in some
    run of [get_all_pages]. *)
Inductive reachable (E : Env) (query : string) : Locals -> World -> Prop :=
  | reachable_entry headers timer_start w :
      reachable E query (loop_entry headers timer_start) w
  | reachable_continue st w st' w' :
      reachable E query st w ->
      loop_body E query st w = (Returned (inl st'), w') ->
      reachable E query st' w'.

(** [sent] is [query] with some page number in place of PAGENUMBER. *)
Definition page_query (query sent : string) : Prop :=
  ∃ page, sent = PyStr.replace "PAGENUMBER" (PyStr.str page) query.

(** The name an entry of [options] stands for, in the words of the
    specification: its [marketingName] when present and truthy, otherwise
    its [marketingLongName]; none for an entry that has neither (an empty
    string is falsy, so it names nothing). *)
Definition entry_name (item : OptionEntry) : option string :=
  match marketingName item with
  | Some (String c name) => Some (String c name)
  | _ =>
      match marketingLongName item with
      | Some (String c name) => Some (String c name)
      | _ => None
      end
  end.

(** An environment in which nothing raises: the template can be read,
    the three globals are strings, the WAF bypass and every request
    return. *)
Definition never_raises (E : Env) : Prop :=
  (∀ n, is_Some (env_file E n))
  ∧ is_Some (ZIPCODE E) ∧ is_Some (MODEL E) ∧ is_Some (DISTANCE E)
  ∧ (∀ n, is_Some (env_waf E n))
  ∧ (∀ n query hdrs, env_post E n query hdrs ≠ HttpRaises).

(** ** Test doubles *)

Module Stub.

Definition vehicle (v note : string) : Vehicle :=
  {| vin := v; options := []; columns := [("dealerMarketingName", note)] |}.

(** A result that carries [records]. *)
Definition result (records : list Vehicle) : option LocateResult :=
  Some {| vehicleSummary := Some records; other_keys := ["pagination"] |}.

(** A response whose envelope carries [records]. *)
Definition page (records : list Vehicle) : HttpOutcome :=
  HttpResponse (LocateVehiclesByZip (result records)).

(** A challenge page instead of JSON. *)
Definition blocked : HttpOutcome := HttpResponse NoEnvelope.

Definition template : string :=
  "{ zip: ZIPCODE, model: MODELCODE, miles: DISTANCEMILES, page: PAGENUMBER, lead: LEADIDUUID }".

(** An environment with all three globals set, in which the n-th
    request is answered by [responses n] and the n-th reading of the
    clock is [clock n]. *)
Definition env (responses : nat -> HttpOutcome) (clock : nat -> Q) : Env :=
  {| MODEL := Some "sienna"; ZIPCODE := Some "90210"; DISTANCE := Some "100";
     env_file := fun _ => Some template;
     env_uuid4 := fun n => "lead-" +:+ PyStr.str n;
     env_waf := fun n => Some [("x-aws-waf-token", "token-" +:+ PyStr.str n)];
     env_timer := clock;
     env_post := fun n _ _ => responses n;
     env_to_json_raw := fun _ => None;
     env_to_csv_simple := fun _ => None |}.

(** A clock that advances eleven seconds per reading. *)
Definition steady_clock (n : nat) : Q := inject_Z (Z.of_nat (11 * n)).

(** The query as [get_vehicles_query] builds it from [template] with
    these globals and the first lead id. *)
Definition query : string :=
  "{ zip: 90210, model: sienna, miles: 100, page: PAGENUMBER, lead: lead-0 }".

(** The world when the loop is entered: the template read, one lead id
    drawn, the WAF bypassed once, the clock read once. *)
Definition world_at_entry : World :=
  {| query_cache := Some query; n_file := 1; n_uuid := 1; n_waf := 1;
     n_timer := 1; n_post := 0; trace := [EvWaf; EvReadQuery] |}.

Definition entry : Locals :=
  loop_entry [("x-aws-waf-token", "token-0")] (steady_clock 0).

Definition car_a : Vehicle := vehicle "5TDKRKEC0PS000001" "Toyota of Hollywood".
Definition car_b : Vehicle := vehicle "5TDKRKEC0PS000002" "Toyota of Glendale".
Definition car_c : Vehicle := vehicle "5TDKRKEC0PS000003" "Toyota of Pasadena".

(** [car_a] again, listed by another dealer. *)
Definition car_a_moved : Vehicle := vehicle "5TDKRKEC0PS000001" "Toyota of Downtown LA".

(** Pages 1 and 2 list the same two VINs; later pages would bring more. *)
Definition same_ids_twice : Env :=
  env (fun n =>
         match n with
         | 0 => page [car_a; car_b]
         | 1 => page [car_b; car_a_moved]
         | _ => page [car_c]
         end) steady_clock.

(** Page 2 is a challenge page between two pages that each bring a new
    record; page 4 is empty. *)
Definition blocked_second_page : Env :=
  env (fun n =>
         match n with
         | 0 => page [car_a]
         | 1 => blocked
         | 2 => page [car_b]
         | _ => page []
         end) steady_clock.

(** The first request times out; a second one would succeed. *)
Definition timeout_first_request : Env :=
  env (fun n =>
         match n with
         | 0 => HttpRaises
         | 1 => page [car_a]
         | _ => page []
         end) steady_clock.

(** The third request times out after two pages that each brought a new
    record. *)
Definition timeout_third_request : Env :=
  env (fun n =>
         match n with
         | 0 => page [car_a]
         | 1 => page [car_b]
         | 2 => HttpRaises
         | _ => page []
         end) steady_clock.

(** Page 2 lists [car_a] again, under another dealer, and a new
    record. *)
Definition overlapping_pages : Env :=
  env (fun n =>
         match n with
         | 0 => page [car_a; car_b]
         | 1 => page [car_a_moved; car_c]
         | _ => page []
         end) steady_clock.

(** Every page brings one record never seen before, and every reading
    of the clock is 130 seconds after the one before. *)
Definition always_new : Env :=
  env (fun n => page [vehicle (PyStr.str n) "Toyota of Hollywood"])
      (fun n => inject_Z (Z.of_nat (130 * n))).

(** [ZIPCODE] is not set. *)
Definition no_zipcode : Env :=
  {| MODEL := Some "sienna"; ZIPCODE := None; DISTANCE := Some "100";
     env_file := fun _ => Some template;
     env_uuid4 := fun n => "lead-" +:+ PyStr.str n;
     env_waf := fun n => Some [("x-aws-waf-token", "token-" +:+ PyStr.str n)];
     env_timer := steady_clock;
     env_post := fun n _ _ => page [car_a];
     env_to_json_raw := fun _ => None;
     env_to_csv_simple := fun _ => None |}.

(** [DISTANCE] is set to the empty string. *)
Definition empty_distance : Env :=
  {| MODEL := Some "sienna"; ZIPCODE := Some "90210"; DISTANCE := Some "";
     env_file := fun _ => Some template;
     env_uuid4 := fun n => "lead-" +:+ PyStr.str n;
     env_waf := fun n => Some [("x-aws-waf-token", "token-" +:+ PyStr.str n)];
     env_timer := steady_clock;
     env_post := fun n _ _ => page [car_a];
     env_to_json_raw := fun _ => None;
     env_to_csv_simple := fun _ => None |}.

Definition roof_rack : OptionEntry :=
  {| marketingName := Some "Roof Rack"; marketingLongName := Some "Roof Rack Cross Bars" |}.

Definition floor_mats : OptionEntry :=
  {| marketingName := Some ""; marketingLongName := Some "All-Weather Floor Liners" |}.

Definition unnamed : OptionEntry :=
  {| marketingName := None; marketingLongName := Some "" |}.

End Stub.

(** ** The rest of the program *)

(** *** [to_csv_simple]: the ETA column *)

Module Csv.

Inductive Exn :=
  | ValueError       (* [str.split] with an empty separator *)
  | IndexError       (* subscript of an empty list *)
  | AttributeError   (* a method looked up on a cell that is not a string *).

(** Scan of [str.split] for a non-empty separator: the piece under
    way and the pieces after it; [skip] characters of a separator
    already found remain to be dropped. *)
Fixpoint split_scan (sep : string) (skip : nat) (s : string) : string * list string :=
  match s with
  | EmptyString => (EmptyString, [])
  | String c s' =>
      match skip with
      | S k => split_scan sep k s'
      | O =>
          if String.prefix sep s
          then (EmptyString,
                let (piece, pieces) := split_scan sep (String.length sep - 1) s' in
                piece :: pieces)
          else let (piece, pieces) := split_scan sep 0 s' in
               (String c piece, pieces)
      end
  end.

(** [s.split(sep)]. *)
Definition split (sep s : string) : Exn + list string :=
  match sep with
  | EmptyString => inl ValueError
  | String _ _ => let (piece, pieces) := split_scan sep 0 s in inr (piece :: pieces)
  end.

(** Line 237: [lambda dt: dt.split("T")[0]]. *)
Definition eta_date (dt : string) : Exn + string :=
  match split "T" dt with
  | inl e => inl e
  | inr [] => inl IndexError
  | inr (first :: _) => inr first
  end.

(** [series.apply(f)] for an [f] that may raise: cell by cell, in
    order, up to the first exception. *)
Fixpoint apply {A B} (f : A -> Exn + B) (cells : list A) : Exn + list B :=
  match cells with
  | [] => inr []
  | cell :: rest =>
      match f cell with
      | inl e => inl e
      | inr out =>
          match apply f rest with
          | inl e => inl e
          | inr outs => inr (out :: outs)
          end
      end
  end.

(** A cell of the ETA column: [None] is null. *)
Definition isnull (cell : option string) : bool :=
  match cell with None => true | Some _ => false end.

(** [fillna(value)] on one cell. *)
Definition fillna (value : string) (cell : option string) : string :=
  match cell with None => value | Some dt => dt end.

(** Lines 234-237: with a null anywhere in the column the nulls become
    "Unknown" ([fillna] with [inplace=True] on the column of the frame)
    and nothing else is done; without one, every cell is cut by
    [eta_date]. *)
Definition eta_column (ETA : list (option string)) : Exn + list string :=
  if existsb isnull ETA
  then inr (fillna "Unknown" <$> ETA)
  else apply (fun cell =>
                match cell with
                | Some dt => eta_date dt
                | None => inl AttributeError
                end) ETA.

End Csv.

(** *** [wafbypass.WAFBypass] *)

Module WAF.

Inductive Exn :=
  | AttributeError    (* [self.valid_headers] read before it was set *)
  | PlaywrightError   (* the browser session raises *).

(** A request the page makes, as the handler sees it. *)
Record Request := {
  resource_type : string;
  url : string;
  request_headers : Headers
}.

(** [s.endswith(suffix)]: some tail of [s] is [suffix]. *)
Fixpoint endswith (s suffix : string) : bool :=
  String.eqb s suffix
  || match s with
     | EmptyString => false
     | String _ s' => endswith s' suffix
     end.

(** The object: its attribute [valid_headers], [None] until it is
    set. *)
Definition Self := option Headers.

Definition intercept_request (self : Self) (request : Request) : Self * Request :=
  if String.eqb (resource_type request) "xhr" && endswith (url request) "/graphql"
  then (Some (request_headers request), request)
  else (self, request).

(** What a browser session does: the requests the page makes while the
    script runs, in order, and whether the script gets to its end. *)
Record Session := {
  observed : list Request;
  completes : bool
}.

(** [get_headers]: the handler sees every request of the session. *)
Definition get_headers (self : Self) (session : Session) : (Exn + unit) * Self :=
  let self := foldl (fun self request => (intercept_request self request).1)
                self (observed session) in
  (if completes session then inr tt else inl PlaywrightError, self).

Definition run (self : Self) (session : Session) : (Exn + Headers) * Self :=
  match get_headers self session with
  | (inl e, self) => (inl e, self)
  | (inr _, self) =>
      match self with
      | Some valid_headers => (inr valid_headers, self)
      | None => (inl AttributeError, self)
      end
  end.

(** A request that the handler records. *)
Definition graphql_xhr (request : Request) : Prop :=
  resource_type request = "xhr" ∧ ∃ base, url request = base +:+ "/graphql".

End WAF.

(** *** [config.random_user_agent] *)

Module Config.

Inductive Exn :=
  | OSError      (* the file cannot be read or is not JSON *)
  | KeyError     (* an entry without "ua" *)
  | IndexError   (* subscript of an empty list *).

(** An entry of common_user_agents.json: its "ua", if it has the
    key. *)
Record UserAgent := { ua : option string; pct : string }.

(** [[x["ua"] for x in user_agents]]: every entry is subscripted. *)
Fixpoint all_ua (user_agents : list UserAgent) : Exn + list string :=
  match user_agents with
  | [] => inr []
  | x :: rest =>
      match ua x with
      | None => inl KeyError
      | Some agent =>
          match all_ua rest with
          | inl e => inl e
          | inr agents => inr (agent :: agents)
          end
      end
  end.

(** [random_user_agent], given what [json.load] gives and what
    [random.shuffle] makes of a list. *)
Definition random_user_agent
    (shuffle : list UserAgent -> list UserAgent)
    (file : option (list UserAgent)) : Exn + string :=
  match file with
  | None => inl OSError
  | Some user_agents =>
      let user_agents := shuffle user_agents in
      match all_ua user_agents with
      | inl e => inl e
      | inr [] => inl IndexError
      | inr (agent :: _) => inr agent
      end
  end.

End Config.

(** ** Vocabulary of further statements *)

(** The headers of the requests posted, latest first. *)
Fixpoint posted_headers (tr : list Event) : list Headers :=
  match tr with
  | [] => []
  | EvPost _ hdrs :: rest => hdrs :: posted_headers rest
  | _ :: rest => posted_headers rest
  end.

(** The frames handed to the writers, latest first. *)
Fixpoint written (tr : list Event) : list Event :=
  match tr with
  | [] => []
  | EvToJsonRaw d :: rest => EvToJsonRaw d :: written rest
  | EvToCsvSimple d :: rest => EvToCsvSimple d :: written rest
  | _ :: rest => written rest
  end.

(** Reading a trace from its latest event: no request is met while
    [pending], and a request makes the ones before it [pending] until a
    [sleep] of ten seconds or more is met. *)
Fixpoint spaced (pending : bool) (tr : list Event) : bool :=
  match tr with
  | [] => true
  | EvPost _ _ :: rest => negb pending && spaced true rest
  | EvSleep seconds :: rest => spaced (pending && (seconds <? 10)) rest
  | _ :: rest => spaced pending rest
  end.

(** The answers to the requests of a trace, latest first, when the
    oldest request of the trace was request number [base]. *)
Fixpoint responses (E : Env) (base : nat) (tr : list Event) : list HttpOutcome :=
  match tr with
  | [] => []
  | EvPost query hdrs :: rest =>
      env_post E (base + length (posted rest)) query hdrs
      :: responses E base rest
  | _ :: rest => responses E base rest
  end.

(** A row that some response of the API carries. *)
Definition delivered (E : Env) (row : Vehicle) : Prop :=
  ∃ n query hdrs r records,
    env_post E n query hdrs = HttpResponse (LocateVehiclesByZip (Some r))
    ∧ vehicleSummary r = Some records
    ∧ row ∈ records.

(** The query of page [page]. *)
Definition page_request (query : string) (page : nat) : string :=
  PyStr.replace "PAGENUMBER" (PyStr.str page) query.

(** ** Further test doubles *)

Module Sample.

Definition graphql_call : WAF.Request :=
  {| WAF.resource_type := "xhr";
     WAF.url := "https://api.search-inventory.toyota.com/graphql";
     WAF.request_headers := [("x-aws-waf-token", "token-a")] |}.

Definition later_graphql_call : WAF.Request :=
  {| WAF.resource_type := "xhr";
     WAF.url := "https://api.search-inventory.toyota.com/graphql";
     WAF.request_headers := [("x-aws-waf-token", "token-b")] |}.

Definition stylesheet : WAF.Request :=
  {| WAF.resource_type := "stylesheet";
     WAF.url := "https://www.toyota.com/search-inventory/main.css";
     WAF.request_headers := [] |}.

Definition chrome : Config.UserAgent :=
  {| Config.ua := Some "Mozilla/5.0 Chrome/114.0"; Config.pct := "37.8" |}.

Definition firefox : Config.UserAgent :=
  {| Config.ua := Some "Mozilla/5.0 Firefox/115.0"; Config.pct := "9.1" |}.

(** A clock that stands still. *)
Definition frozen_clock (n : nat) : Q := inject_Z 0.

(** Three pages of one new record each, then an empty page, all within
    the same instant. *)
Definition three_pages : Env :=
  Stub.env (fun n =>
              match n with
              | 0 => Stub.page [Stub.car_a]
              | 1 => Stub.page [Stub.car_b]
              | 2 => Stub.page [Stub.car_c]
              | _ => Stub.page []
              end) frozen_clock.

(** As [three_pages], with no [output] directory to write to. *)
Definition no_output_directory : Env :=
  {| MODEL := Some "sienna"; ZIPCODE := Some "90210"; DISTANCE := Some "100";
     env_file := fun _ => Some Stub.template;
     env_uuid4 := fun n => "lead-" +:+ PyStr.str n;
     env_waf := fun n => Some [("x-aws-waf-token", "token-" +:+ PyStr.str n)];
     env_timer := frozen_clock;
     env_post := env_post three_pages;
     env_to_json_raw := fun _ => Some OSError;
     env_to_csv_simple := fun _ => None |}.

(** The template cannot be read. *)
Definition no_template : Env :=
  {| MODEL := Some "sienna"; ZIPCODE := Some "90210"; DISTANCE := Some "100";
     env_file := fun _ => None;
     env_uuid4 := fun n => "lead-" +:+ PyStr.str n;
     env_waf := fun n => Some [("x-aws-waf-token", "token-" +:+ PyStr.str n)];
     env_timer := Stub.steady_clock;
     env_post := fun n _ _ => Stub.page [Stub.car_a];
     env_to_json_raw := fun _ => None;
     env_to_csv_simple := fun _ => None |}.

End Sample.

(** * Properties *)


(** ** Dropping duplicate VINs *)

Section Dedup.

Implicit Types (df rows : DataFrame) (seen : list string).

Lemma keep_first_ext seen seen' df :
  (∀ v, v ∈ seen ↔ v ∈ seen') → keep_first seen df = keep_first seen' df.
Proof.
  revert seen seen'. induction df as [|row rest IH]; intros seen seen' Heq; [done|].
  simpl. rewrite (bool_decide_ext _ _ (Heq (vin row))).
  case_bool_decide; [by apply IH|].
  f_equal. apply IH. intros v. rewrite !elem_of_cons. naive_solver.
Qed.

Lemma keep_first_app seen df rows :
  keep_first seen (df ++ rows)
  = keep_first seen df ++ keep_first (vins df ++ seen) rows.
Proof.
  revert seen. induction df as [|row rest IH]; intros seen; [done|].
  simpl. case_bool_decide as Hin.
  - rewrite IH. f_equal. apply keep_first_ext. intros v.
    rewrite elem_of_cons, !elem_of_app. naive_solver.
  - simpl. f_equal. rewrite IH. f_equal. apply keep_first_ext. intros v.
    rewrite !elem_of_cons, !elem_of_app, elem_of_cons. naive_solver.
Qed.

Lemma keep_first_id seen df :
  NoDup (vins df) → (∀ v, v ∈ vins df → v ∉ seen) → keep_first seen df = df.
Proof.
  revert seen. induction df as [|row rest IH]; intros seen Hnd Hfresh; [done|].
  simpl in *. apply NoDup_cons in Hnd as [Hhead Hnd].
  rewrite bool_decide_eq_false_2 by (apply Hfresh; left).
  f_equal. apply IH; [done|]. intros v Hv. rewrite elem_of_cons.
  intros [->|Hs]; [done|]. by apply (Hfresh v); [right|].
Qed.

Lemma elem_of_keep_first seen df v :
  v ∈ vins (keep_first seen df) ↔ v ∈ vins df ∧ v ∉ seen.
Proof.
  revert seen. induction df as [|row rest IH]; intros seen; simpl.
  - rewrite elem_of_nil. naive_solver.
  - case_bool_decide as Hin; simpl; rewrite ?elem_of_cons, IH, ?elem_of_cons.
    + naive_solver.
    + destruct (decide (v = vin row)); naive_solver.
Qed.

Lemma keep_first_NoDup seen df : NoDup (vins (keep_first seen df)).
Proof.
  revert seen. induction df as [|row rest IH]; intros seen; simpl.
  - constructor.
  - case_bool_decide; [apply IH|]. simpl. apply NoDup_cons. split; [|apply IH].
    rewrite elem_of_keep_first, elem_of_cons. naive_solver.
Qed.

Lemma keep_first_absorbed seen rows :
  (∀ v, v ∈ vins rows → v ∈ seen) → keep_first seen rows = [].
Proof.
  induction rows as [|row rest IH]; intros Hsub; [done|]. simpl.
  rewrite bool_decide_eq_true_2 by (apply Hsub; left).
  apply IH. intros v Hv. apply Hsub. by right.
Qed.

Lemma drop_duplicates_NoDup df : NoDup (vins (drop_duplicates df)).
Proof. apply keep_first_NoDup. Qed.

Lemma drop_duplicates_id df : NoDup (vins df) → drop_duplicates df = df.
Proof. intros Hnd. apply keep_first_id; [done|]. intros v _. apply not_elem_of_nil. Qed.

Lemma drop_duplicates_concat df rows :
  NoDup (vins df) →
  drop_duplicates (concat df rows) = df ++ keep_first (vins df) rows.
Proof.
  intros Hnd. unfold drop_duplicates, concat. rewrite keep_first_app.
  rewrite app_nil_r. f_equal. by apply drop_duplicates_id.
Qed.

Lemma merge_page_records df result :
  merge_page df result = drop_duplicates (concat df (page_records result)).
Proof.
  unfold merge_page, page_records, concat, json_normalize.
  destruct result as [[[records|] others]|]; simpl; rewrite ?app_nil_r; try done.
  by destruct others.
Qed.

Lemma merge_page_NoDup df result : NoDup (vins (merge_page df result)).
Proof. rewrite merge_page_records. apply drop_duplicates_NoDup. Qed.

Lemma merge_page_grows df result :
  NoDup (vins df) →
  merge_page df result = df ++ keep_first (vins df) (page_records result).
Proof. intros Hnd. rewrite merge_page_records. by apply drop_duplicates_concat. Qed.

Lemma merge_page_length df result :
  NoDup (vins df) → length df ≤ length (merge_page df result).
Proof. intros Hnd. rewrite merge_page_grows by done. rewrite length_app. lia. Qed.

Lemma merge_page_known df result :
  NoDup (vins df) →
  (∀ v, v ∈ vins (page_records result) → v ∈ vins df) →
  merge_page df result = df.
Proof.
  intros Hnd Hsub. rewrite merge_page_grows by done.
  rewrite keep_first_absorbed by done. apply app_nil_r.
Qed.

Lemma merge_page_covers df result v :
  v ∈ vins (page_records result) → v ∈ vins (merge_page df result).
Proof.
  intros Hv. rewrite merge_page_records. unfold drop_duplicates.
  apply elem_of_keep_first. split; [|apply not_elem_of_nil].
  unfold concat, vins. rewrite fmap_app, elem_of_app. by right.
Qed.

End Dedup.

(** ** Float subtraction *)

Lemma round_half_even_le (x : Q) (N : Z) :
  Qle x (inject_Z N) → (Float.round_half_even x ≤ N)%Z.
Proof.
  intros Hx. unfold Float.round_half_even. cbv zeta.
  pose proof (Qfloor_resp_le _ _ Hx) as Hfloor. rewrite Qfloor_Z in Hfloor.
  destruct (Z.eq_dec (Qfloor x) N) as [Heq|Hne].
  - assert (Hlt : Qlt (Qminus x (inject_Z (Qfloor x))) (1 # 2)).
    { rewrite Heq. apply Qle_lt_trans with (inject_Z 0); [|done].
      unfold Qminus. rewrite <- (Qplus_opp_r (inject_Z N)).
      by apply Qplus_le_l. }
    apply Qlt_alt in Hlt.
    change (Qcompare (Qminus x (inject_Z (Qfloor x))) (1 # 2) = Lt) in Hlt.
    rewrite Hlt. lia.
  - destruct (Qcompare _ _); [destruct (Z.even (Qfloor x))|..]; lia.
Qed.

Lemma round_half_even_nonneg (x : Q) :
  Qle (inject_Z 0) x → (0 ≤ Float.round_half_even x)%Z.
Proof.
  intros Hx. unfold Float.round_half_even. cbv zeta.
  pose proof (Qfloor_resp_le _ _ Hx) as Hfloor. rewrite Qfloor_Z in Hfloor.
  destruct (Qcompare _ _); [destruct (Z.even (Qfloor x))|..]; lia.
Qed.

Lemma pow2_pos k : Qlt (inject_Z 0) (Float.pow2 k).
Proof. by apply Qpower_0_lt. Qed.

Lemma pow2_mono a b : (a ≤ b)%Z → Qle (Float.pow2 a) (Float.pow2 b).
Proof. intros Hab. by apply Qpower_le_compat_l. Qed.

Lemma round_positive_nonneg x :
  Qle (inject_Z 0) x → Qle (inject_Z 0) (Float.round_positive x).
Proof.
  intros Hx. unfold Float.round_positive. cbv zeta.
  apply Qmult_le_0_compat; [|apply Qlt_le_weak, pow2_pos].
  assert (Hint : (0 ≤ Float.round_half_even
                        (Qmult x (Float.pow2 (52 - Float.exponent x))))%Z).
  { apply round_half_even_nonneg.
    apply Qmult_le_0_compat; [done|apply Qlt_le_weak, pow2_pos]. }
  unfold Qle. simpl. lia.
Qed.

Lemma exponent_lt (x : Q) (k : Z) :
  Qlt (inject_Z 0) x → Qlt x (Float.pow2 k) → (0 ≤ k)%Z →
  (Float.exponent x < k)%Z.
Proof.
  intros Hpos Hx Hk. unfold Float.exponent. cbv zeta.
  destruct (Qle_bool _ _) eqn:Hle.
  - apply Qle_bool_iff in Hle.
    apply Z.nle_gt. intros Hge. apply pow2_mono in Hge.
    apply (Qlt_irrefl x). eapply Qlt_le_trans; [exact Hx|].
    by eapply Qle_trans.
  - unfold Float.pow2 in Hx. rewrite <- Zpower_Qpower in Hx by done.
    destruct x as [n d]. unfold Qlt in Hpos, Hx.
    cbn [Qnum Qden inject_Z] in Hpos, Hx |- *.
    assert (Hlog : (Z.log2 n ≤ Z.log2 (Z.pos d * 2 ^ k))%Z).
    { apply Z.log2_le_mono. rewrite (Z.mul_comm (Z.pos d)). lia. }
    rewrite Z.log2_mul_pow2 in Hlog by lia. lia.
Qed.

Lemma pow2_minus (a b : Z) :
  (0 ≤ a)%Z → (0 ≤ b)%Z →
  Qeq (Float.pow2 (a - b)) (Qdiv (inject_Z (2 ^ a)) (inject_Z (2 ^ b))).
Proof.
  intros Ha Hb. unfold Float.pow2. rewrite Qpower_minus by done.
  by rewrite <- !Zpower_Qpower.
Qed.

Lemma pow2_log2 (n : Z) (d : positive) :
  (0 < n)%Z →
  (Qle (Float.pow2 (Z.log2 n - Z.log2 (Z.pos d) - 1)) (n # d))
  ∧ Qlt (n # d) (Float.pow2 (Z.log2 n - Z.log2 (Z.pos d) + 1)).
Proof.
  intros Hn.
  pose proof (Z.log2_spec n Hn) as [Hn1 Hn2].
  pose proof (Z.log2_spec (Z.pos d) eq_refl) as [Hd1 Hd2].
  pose proof (Z.log2_nonneg n) as Hln.
  pose proof (Z.log2_nonneg (Z.pos d)) as Hld.
  assert (Hpn : (0 < 2 ^ Z.log2 n)%Z) by (apply Z.pow_pos_nonneg; lia).
  assert (Hpd : (0 < 2 ^ Z.log2 (Z.pos d))%Z) by (apply Z.pow_pos_nonneg; lia).
  rewrite Z.pow_succ_r in Hn2, Hd2 by done.
  split.
  - replace (Z.log2 n - Z.log2 (Z.pos d) - 1)%Z
      with (Z.log2 n - (Z.log2 (Z.pos d) + 1))%Z by lia.
    rewrite pow2_minus by lia. rewrite Z.pow_add_r by lia.
    apply Qle_shift_div_r.
    + unfold Qlt. cbn [Qnum Qden inject_Z]. lia.
    + unfold Qle, Qmult. cbn [Qnum Qden inject_Z].
      rewrite ?Pos2Z.inj_mul. nia.
  - replace (Z.log2 n - Z.log2 (Z.pos d) + 1)%Z
      with (Z.log2 n + 1 - Z.log2 (Z.pos d))%Z by lia.
    rewrite pow2_minus by lia. rewrite Z.pow_add_r by lia.
    apply Qlt_shift_div_l.
    + unfold Qlt. cbn [Qnum Qden inject_Z]. lia.
    + unfold Qlt, Qmult. cbn [Qnum Qden inject_Z].
      rewrite ?Pos2Z.inj_mul. nia.
Qed.

Lemma exponent_spec (x : Q) :
  Qlt (inject_Z 0) x →
  Qle (Float.pow2 (Float.exponent x)) x
  ∧ Qlt x (Float.pow2 (Float.exponent x + 1)).
Proof.
  intros Hpos. unfold Float.exponent. cbv zeta.
  destruct x as [n d].
  assert (Hn : (0 < n)%Z) by (unfold Qlt in Hpos; simpl in Hpos; lia).
  destruct (pow2_log2 n d Hn) as [Hlow Hhigh].
  cbn [Qnum Qden].
  destruct (Qle_bool _ _) eqn:Hle.
  - apply Qle_bool_iff in Hle. by split.
  - split; [done|].
    replace (Z.log2 n - Z.log2 (Z.pos d) - 1 + 1)%Z
      with (Z.log2 n - Z.log2 (Z.pos d))%Z by lia.
    apply Qnot_le_lt. intros Hle'. apply Qle_bool_iff in Hle'. congruence.
Qed.

Lemma round_half_even_ge (x : Q) (N : Z) :
  Qle (inject_Z N) x → (N ≤ Float.round_half_even x)%Z.
Proof.
  intros Hx. unfold Float.round_half_even. cbv zeta.
  pose proof (Qfloor_resp_le _ _ Hx) as Hfloor. rewrite Qfloor_Z in Hfloor.
  destruct (Qcompare _ _); [destruct (Z.even (Qfloor x))|..]; lia.
Qed.

Lemma round_half_even_above_half (x : Q) (N : Z) :
  Qlt (Qplus (inject_Z N) (1 # 2)) x → (N + 1 ≤ Float.round_half_even x)%Z.
Proof.
  intros Hx. unfold Float.round_half_even. cbv zeta.
  assert (Hle : Qle (inject_Z N) x).
  { apply Qlt_le_weak. eapply Qle_lt_trans; [|exact Hx].
    rewrite <- (Qplus_0_r (inject_Z N)) at 1. by apply Qplus_le_r. }
  pose proof (Qfloor_resp_le _ _ Hle) as Hfloor. rewrite Qfloor_Z in Hfloor.
  destruct (Z.eq_dec (Qfloor x) N) as [Heq|Hne].
  - assert (Hgt : Qlt (1 # 2) (Qminus x (inject_Z (Qfloor x)))).
    { rewrite Heq. apply (Qplus_lt_l _ _ (inject_Z N)).
      unfold Qminus. rewrite <- Qplus_assoc, (Qplus_comm (- inject_Z N)).
      rewrite Qplus_opp_r, Qplus_0_r. by rewrite Qplus_comm. }
    apply Qgt_alt in Hgt.
    change (Qcompare (Qminus x (inject_Z (Qfloor x))) (1 # 2) = Gt) in Hgt.
    rewrite Hgt. lia.
  - destruct (Qcompare _ _); [destruct (Z.even (Qfloor x))|..]; lia.
Qed.

Lemma round_half_even_upto_half (x : Q) (N : Z) :
  Z.even N = true →
  Qle x (Qplus (inject_Z N) (1 # 2)) → (Float.round_half_even x ≤ N)%Z.
Proof.
  intros Heven Hx. unfold Float.round_half_even. cbv zeta.
  assert (Hfloor : (Qfloor x ≤ N)%Z).
  { apply Z.lt_succ_r. rewrite Zlt_Qlt.
    eapply Qle_lt_trans; [apply Qfloor_le|].
    eapply Qle_lt_trans; [exact Hx|].
    unfold Z.succ. rewrite inject_Z_plus. by apply Qplus_lt_r. }
  destruct (Z.eq_dec (Qfloor x) N) as [Heq|Hne].
  - rewrite Heq, Heven.
    destruct (Qcompare _ _) eqn:Hc; [lia..|].
    apply Qgt_alt in Hc. exfalso. apply (Qlt_irrefl (1 # 2)).
    eapply Qlt_le_trans; [exact Hc|].
    apply (Qplus_le_l _ _ (inject_Z N)).
    unfold Qminus. rewrite <- Qplus_assoc, (Qplus_comm (- inject_Z N)).
    rewrite Qplus_opp_r, Qplus_0_r. by rewrite (Qplus_comm (1 # 2)).
  - destruct (Qcompare _ _); [destruct (Z.even (Qfloor x))|..]; lia.
Qed.

Lemma pow2_plus (a b : Z) :
  Qeq (Float.pow2 (a + b)) (Qmult (Float.pow2 a) (Float.pow2 b)).
Proof. unfold Float.pow2. by rewrite Qpower_plus. Qed.

Lemma pow2_lt_inv (a b : Z) : Qlt (Float.pow2 a) (Float.pow2 b) → (a < b)%Z.
Proof.
  intros Hlt. apply Z.nle_gt. intros Hle. apply pow2_mono in Hle.
  by apply (Qlt_not_le _ _ Hlt).
Qed.

(** The nearest float is above 240 exactly when [x] is above the middle
    of 240 and the next float, [240 + 2 ** -45]: the middle itself goes
    to 240, whose last bit is 0. *)
Lemma round_above_240 (x : Q) :
  Qlt (inject_Z 240) (Float.round x)
  ↔ Qlt (Qplus (inject_Z 240) (Float.pow2 (-46))) x.
Proof.
  split.
  - intros Hround. apply Qnot_le_lt. intros Hx.
    apply (Qlt_not_le _ _ Hround). clear Hround.
    unfold Float.round.
    destruct (Qcompare x (inject_Z 0)) eqn:Hsign; [done|..].
    { apply Qle_trans with (inject_Z 0); [|done].
      apply (Qopp_le_compat (inject_Z 0)). apply round_positive_nonneg.
      apply Qlt_le_weak. apply Qlt_alt in Hsign.
      by apply (Qopp_lt_compat x (inject_Z 0)). }
    assert (Hpos : Qlt (inject_Z 0) x) by (by apply Qgt_alt).
    destruct (exponent_spec x Hpos) as [_ Hhigh].
    assert (He : (Float.exponent x < 8)%Z).
    { apply exponent_lt; [done| |done].
      by eapply Qle_lt_trans; [exact Hx|]. }
    unfold Float.round_positive. cbv zeta.
    remember (Float.exponent x) as e eqn:Hedef. clear Hedef.
    destruct (Z.eq_dec e 7%Z) as [->|Hne].
    + assert (Hint : (Float.round_half_even (Qmult x (Float.pow2 (52 - 7)))
                      ≤ 240 * 2 ^ 45)%Z).
      { apply round_half_even_upto_half; [done|].
        eapply Qle_trans;
          [apply Qmult_le_compat_r; [exact Hx|apply Qlt_le_weak, pow2_pos]|].
        by vm_compute. }
      rewrite Zle_Qle in Hint.
      apply (Qmult_le_compat_r _ _ (Float.pow2 (7 - 52))) in Hint;
        [|apply Qlt_le_weak, pow2_pos].
      eapply Qle_trans; [exact Hint|]. by vm_compute.
    + assert (Hint : (Float.round_half_even (Qmult x (Float.pow2 (52 - e)))
                      ≤ 2 ^ 53)%Z).
      { apply round_half_even_le.
        eapply Qle_trans;
          [apply Qmult_le_compat_r;
             [apply Qlt_le_weak, Hhigh|apply Qlt_le_weak, pow2_pos]|].
        rewrite <- pow2_plus. replace (e + 1 + (52 - e))%Z with 53%Z by lia.
        by vm_compute. }
      rewrite Zle_Qle in Hint.
      apply (Qmult_le_compat_r _ _ (Float.pow2 (e - 52))) in Hint;
        [|apply Qlt_le_weak, pow2_pos].
      eapply Qle_trans; [exact Hint|].
      apply Qle_trans with (Float.pow2 7); [|by vm_compute].
      assert (H53 : Qeq (inject_Z (2 ^ 53)) (Float.pow2 53)) by (by vm_compute).
      rewrite H53, <- pow2_plus. apply pow2_mono. lia.
  - intros Hx.
    assert (Hpos : Qlt (inject_Z 0) x)
      by (by eapply Qlt_trans; [|exact Hx]).
    unfold Float.round.
    apply Qgt_alt in Hpos as Hsign.
    change (Qcompare x (inject_Z 0) = Gt) in Hsign. rewrite Hsign.
    destruct (exponent_spec x Hpos) as [Hlow Hhigh].
    assert (He : (7 < Float.exponent x + 1)%Z).
    { apply pow2_lt_inv. eapply Qlt_trans; [|exact Hhigh].
      by eapply Qlt_trans; [|exact Hx]. }
    unfold Float.round_positive. cbv zeta.
    remember (Float.exponent x) as e eqn:Hedef. clear Hedef.
    destruct (Z.eq_dec e 7%Z) as [->|Hne].
    + assert (Hint : (240 * 2 ^ 45 + 1
                      ≤ Float.round_half_even (Qmult x (Float.pow2 (52 - 7))))%Z).
      { apply round_half_even_above_half.
        eapply Qle_lt_trans;
          [|apply Qmult_lt_compat_r; [apply pow2_pos|exact Hx]].
        by vm_compute. }
      rewrite Zle_Qle in Hint.
      apply (Qmult_le_compat_r _ _ (Float.pow2 (7 - 52))) in Hint;
        [|apply Qlt_le_weak, pow2_pos].
      eapply Qlt_le_trans; [|exact Hint]. by vm_compute.
    + assert (Hint : (2 ^ 52
                      ≤ Float.round_half_even (Qmult x (Float.pow2 (52 - e))))%Z).
      { apply round_half_even_ge.
        eapply Qle_trans;
          [|apply Qmult_le_compat_r; [exact Hlow|apply Qlt_le_weak, pow2_pos]].
        rewrite <- pow2_plus. replace (e + (52 - e))%Z with 52%Z by lia.
        by vm_compute. }
      rewrite Zle_Qle in Hint.
      apply (Qmult_le_compat_r _ _ (Float.pow2 (e - 52))) in Hint;
        [|apply Qlt_le_weak, pow2_pos].
      eapply Qlt_le_trans; [|exact Hint].
      apply Qlt_le_trans with (Float.pow2 8); [by vm_compute|].
      assert (H52 : Qeq (inject_Z (2 ^ 52)) (Float.pow2 52)) by (by vm_compute).
      rewrite H52, <- pow2_plus. apply pow2_mono. lia.
Qed.

(** A difference of at most four minutes is never seen as more. *)
Lemma sub_within_threshold (a b : Q) :
  Qle (Qminus a b) renewal_threshold → Qle (Float.sub a b) renewal_threshold.
Proof.
  intros Hle. apply Qnot_lt_le. intros Hlt%round_above_240.
  apply (Qlt_not_le _ _ Hlt). eapply Qle_trans; [exact Hle|].
  by vm_compute.
Qed.

(** 0.1 and 0.3 are not floats; the nearest floats are these. *)
Example round_one_tenth :
  Qred (Float.round (1 # 10)) = (3602879701896397 # 36028797018963968)%Q
  ∧ Qred (Float.round (3 # 10)) = (5404319552844595 # 18014398509481984)%Q.
Proof. by vm_compute. Qed.

(** Floats are kept as they are, and a number in the middle of two
    floats goes to the one with an even last bit. *)
Example round_ties_to_even :
  Qeq (Float.round (inject_Z 240)) (inject_Z 240)
  ∧ Qeq (Float.round (- (5 # 2))) (- (5 # 2))
  ∧ Qeq (Float.round (inject_Z (2 ^ 53 + 1))) (inject_Z (2 ^ 53))
  ∧ Qeq (Float.round (inject_Z (2 ^ 53 + 3))) (inject_Z (2 ^ 53 + 4)).
Proof. by vm_compute. Qed.

(** The readings 0.3 and 240.3 are more than 240 apart as numbers, and
    240.0 apart as floats. *)
Example sub_rounds_to_240 :
  let start := Float.round (3 # 10) in
  let now := Float.round (2403 # 10) in
  Qlt renewal_threshold (Qminus now start)
  ∧ Qeq (Float.sub now start) renewal_threshold
  ∧ refresh_due (Float.sub now start) = false.
Proof. by vm_compute. Qed.

(** ** One call of each effect *)

Section Effects.

Variable E : Env.

Lemma bind_Returned {A B} (c : M A) (k : A -> M B) w a w' :
  c w = (Returned a, w') → bind c k w = k a w'.
Proof. unfold bind. by intros ->. Qed.

Lemma bind_Raised {A B} (c : M A) (k : A -> M B) w e w' :
  c w = (Raised e, w') → bind c k w = (Raised e, w').
Proof. unfold bind. by intros ->. Qed.

Lemma refresh_waf_run st w :
  refresh_waf E st w =
    let now := env_timer E (n_timer w) in
    if refresh_due (Float.sub now (timer_start st)) then
      match env_waf E (n_waf w) with
      | Some new_headers =>
          (Returned {| df := df st; page_number := page_number st;
                       headers := new_headers;
                       timer_start := env_timer E (S (n_timer w));
                       last_run_counter := last_run_counter st |},
           count_timer (log EvWaf (count_waf (count_timer w))))
      | None => (Raised WafError, log EvWaf (count_waf (count_timer w)))
      end
    else (Returned st, count_timer w).
Proof.
  unfold refresh_waf, bind, timer, waf_run, ret. simpl.
  destruct (refresh_due _); [|done]. simpl. by destruct (env_waf E (n_waf w)).
Qed.

Lemma refresh_waf_frame st w r w' :
  refresh_waf E st w = (r, w') →
  n_post w' = n_post w ∧ query_cache w' = query_cache w
  ∧ posted (trace w') = posted (trace w) ∧ r ≠ OutOfFuel
  ∧ ∀ st', r = Returned st' →
      df st' = df st ∧ page_number st' = page_number st
      ∧ last_run_counter st' = last_run_counter st.
Proof.
  rewrite refresh_waf_run. simpl.
  destruct (refresh_due _); [destruct (env_waf E (n_waf w))|];
    intros [= <- <-]; simpl; split_and!; try done;
    by intros ? [= <-].
Qed.

(** What [query_toyota] makes of a response body. *)
Lemma query_toyota_run page query hdrs w :
  query_toyota E page query hdrs w =
    let sent := PyStr.replace "PAGENUMBER" (PyStr.str page) query in
    (match env_post E (n_post w) sent hdrs with
     | HttpRaises => Raised RequestException
     | HttpResponse NoEnvelope => Returned None
     | HttpResponse (LocateVehiclesByZip result) =>
         Returned (if has_vehicleSummary result then result else None)
     end,
     log (EvPost sent hdrs) (count_post w)).
Proof.
  unfold query_toyota, bind, requests_post, ret. simpl.
  destruct (env_post E _ _ _) as [|[|result]]; try done.
  destruct result as [[[records|] others]|]; simpl; try done.
  by destruct others.
Qed.

Lemma query_toyota_frame page query hdrs w r w' :
  query_toyota E page query hdrs w = (r, w') →
  n_post w' = S (n_post w) ∧ query_cache w' = query_cache w
  ∧ posted (trace w')
    = PyStr.replace "PAGENUMBER" (PyStr.str page) query :: posted (trace w)
  ∧ r ≠ OutOfFuel.
Proof.
  rewrite query_toyota_run. simpl. intros [= <- <-]. simpl.
  split_and!; try done. by destruct (env_post E _ _ _) as [|[|result]].
Qed.

Lemma loop_body_run query st w :
  loop_body E query st w =
    if 40 <? page_number st then (Returned (inr (df st)), w)
    else
      match refresh_waf E st w with
      | (Returned st1, w1) =>
          match query_toyota E (page_number st1) query (headers st1) w1 with
          | (Returned result, w2) =>
              let df' := merge_page (df st1) result in
              if length df' =? last_run_counter st1
              then (Returned (inr df'), w2)
              else (Returned
                      (inl {| df := df'; page_number := page_number st1 + 1;
                              headers := headers st1;
                              timer_start := timer_start st1;
                              last_run_counter := length df' |}),
                    log (EvSleep 10) w2)
          | (Raised e, w2) => (Raised e, w2)
          | (OutOfFuel, w2) => (OutOfFuel, w2)
          end
      | (Raised e, w1) => (Raised e, w1)
      | (OutOfFuel, w1) => (OutOfFuel, w1)
      end.
Proof.
  unfold loop_body. destruct (40 <? page_number st); [done|].
  unfold bind. destruct (refresh_waf E st w) as [[st1| |] w1]; try done.
  destruct (query_toyota E _ _ _ w1) as [[result| |] w2]; try done.
  simpl. by destruct (_ =? _).
Qed.

Lemma while_true_S fuel query st w :
  while_true E (S fuel) query st w =
    match loop_body E query st w with
    | (Returned (inl st'), w') => while_true E fuel query st' w'
    | (Returned (inr df), w') => (Returned df, w')
    | (Raised e, w') => (Raised e, w')
    | (OutOfFuel, w') => (OutOfFuel, w')
    end.
Proof.
  simpl. unfold bind.
  by destruct (loop_body E query st w) as [[[st'|d]| |] w'].
Qed.

End Effects.

(** ** The cached query *)

Section Query.

Variable E : Env.

Lemma get_vehicles_query_body_run w :
  get_vehicles_query_body E w =
    let w1 := log EvReadQuery (count_file w) in
    match env_file E (n_file w) with
    | None => (Raised OSError, w1)
    | Some text =>
        match ZIPCODE E, MODEL E, DISTANCE E with
        | Some zipcode, Some model, Some distance =>
            (Returned
               (PyStr.replace "LEADIDUUID" (env_uuid4 E (n_uuid w))
                  (PyStr.replace "DISTANCEMILES" distance
                     (PyStr.replace "MODELCODE" model
                        (PyStr.replace "ZIPCODE" zipcode text)))),
             count_uuid w1)
        | _, _, _ => (Raised TypeError, w1)
        end
    end.
Proof.
  unfold get_vehicles_query_body, bind, read_query_file, replace_global.
  cbv zeta. destruct (env_file E (n_file w)) as [text|]; [|done].
  destruct (ZIPCODE E), (MODEL E), (DISTANCE E); done.
Qed.

Lemma get_vehicles_query_hit w q :
  query_cache w = Some q → get_vehicles_query E w = (Returned q, w).
Proof. unfold get_vehicles_query, cache. by intros ->. Qed.

Lemma get_vehicles_query_frame w r w' :
  get_vehicles_query E w = (r, w') →
  r ≠ OutOfFuel
  ∧ n_post w' = n_post w
  ∧ posted (trace w') = posted (trace w)
  ∧ (∀ q, r = Returned q → query_cache w' = Some q)
  ∧ (never_raises E → ∃ q, r = Returned q).
Proof.
  unfold get_vehicles_query, cache.
  destruct (query_cache w) as [q|] eqn:Hcache.
  { intros [= <- <-]. split_and!; try done; [by intros ? [= <-]|by eauto]. }
  rewrite get_vehicles_query_body_run. cbv zeta.
  destruct (env_file E (n_file w)) as [text|] eqn:Hfile.
  - destruct (ZIPCODE E) as [z|] eqn:Hz, (MODEL E) as [m|] eqn:Hm,
      (DISTANCE E) as [d|] eqn:Hd; intros [= <- <-]; simpl;
      (split_and!; try done; try (by intros ? [= <-]));
      intros (_ & Hz' & Hm' & Hd' & _); rewrite ?Hz, ?Hm, ?Hd in *;
      try (by eauto); by (apply is_Some_None in Hz' || apply is_Some_None in Hm'
                          || apply is_Some_None in Hd').
  - intros [= <- <-]. simpl. split_and!; try done.
    intros (Hf & _). specialize (Hf (n_file w)). rewrite Hfile in Hf.
    by apply is_Some_None in Hf.
Qed.

End Query.

(** ** One pass through the loop body *)

Section Loop.

Variable E : Env.
Variable query : string.

(** A pass whose fetch returns, seen from the locals it started with. *)
Lemma loop_body_fetched st w st1 w1 result w2 :
  page_number st ≤ 40 →
  refresh_waf E st w = (Returned st1, w1) →
  query_toyota E (page_number st1) query (headers st1) w1 = (Returned result, w2) →
  loop_body E query st w =
    let df' := merge_page (df st) result in
    if length df' =? last_run_counter st
    then (Returned (inr df'), w2)
    else (Returned
            (inl {| df := df'; page_number := page_number st + 1;
                    headers := headers st1; timer_start := timer_start st1;
                    last_run_counter := length df' |}),
          log (EvSleep 10) w2).
Proof.
  intros Hpage Hwaf Hfetch. rewrite loop_body_run.
  rewrite (proj2 (Nat.ltb_ge 40 (page_number st))) by done.
  rewrite Hwaf, Hfetch.
  destruct (refresh_waf_frame E st w _ _ Hwaf) as (_ & _ & _ & _ & Hsame).
  destruct (Hsame st1 eq_refl) as (-> & -> & ->). done.
Qed.

(** A pass that reaches [continue] has fetched a page that made the
    frame longer. *)
Lemma loop_body_continue st w st' w' :
  loop_body E query st w = (Returned (inl st'), w') →
  page_number st ≤ 40
  ∧ ∃ st1 w1 result w2,
      refresh_waf E st w = (Returned st1, w1)
      ∧ query_toyota E (page_number st1) query (headers st1) w1
        = (Returned result, w2)
      ∧ w' = log (EvSleep 10) w2
      ∧ df st' = merge_page (df st) result
      ∧ page_number st' = page_number st + 1
      ∧ last_run_counter st' = length (df st')
      ∧ length (df st') ≠ last_run_counter st.
Proof.
  intros Hrun. destruct (decide (page_number st ≤ 40)) as [Hpage|Hpage].
  2:{ rewrite loop_body_run in Hrun.
      rewrite (proj2 (Nat.ltb_lt 40 (page_number st))) in Hrun by lia. done. }
  split; [done|]. pose proof Hrun as Hrun'. rewrite loop_body_run in Hrun'.
  rewrite (proj2 (Nat.ltb_ge 40 (page_number st))) in Hrun' by done.
  destruct (refresh_waf E st w) as [[st1| |] w1] eqn:Hwaf; try done.
  destruct (query_toyota E _ _ _ w1) as [[result| |] w2] eqn:Hfetch; try done.
  clear Hrun'. rewrite (loop_body_fetched _ _ _ _ _ _ Hpage Hwaf Hfetch) in Hrun.
  simpl in Hrun. destruct (_ =? _) eqn:Hlen; [done|].
  injection Hrun as <- <-. exists st1, w1, result, w2. simpl.
  split_and!; try done. by apply Nat.eqb_neq.
Qed.

(** The [break] of lines 122-124. *)
Lemma while_true_converged st w st1 w1 result w2 fuel :
  page_number st ≤ 40 →
  refresh_waf E st w = (Returned st1, w1) →
  query_toyota E (page_number st1) query (headers st1) w1 = (Returned result, w2) →
  length (merge_page (df st) result) = last_run_counter st →
  while_true E (S fuel) query st w = (Returned (merge_page (df st) result), w2).
Proof.
  intros Hpage Hwaf Hfetch Hlen.
  rewrite while_true_S, (loop_body_fetched _ _ _ _ _ _ Hpage Hwaf Hfetch).
  simpl. by rewrite (proj2 (Nat.eqb_eq _ _) Hlen).
Qed.

Lemma loop_inv_entry hdrs start : loop_inv (loop_entry hdrs start).
Proof. split; [constructor|done]. Qed.

Lemma loop_inv_continue st w st' w' :
  loop_body E query st w = (Returned (inl st'), w') → loop_inv st'.
Proof.
  intros (_ & st1 & w1 & result & w2 & _ & _ & _ & Hdf & _ & Hcount & _)
    %loop_body_continue.
  split; [|done]. rewrite Hdf. apply merge_page_NoDup.
Qed.

Lemma reachable_inv st w : reachable E query st w → loop_inv st.
Proof.
  destruct 1 as [hdrs start w|st w st' w' _ Hstep].
  - apply loop_inv_entry.
  - by apply loop_inv_continue in Hstep.
Qed.

Lemma reachable_page st w : reachable E query st w → 1 ≤ page_number st.
Proof.
  induction 1 as [hdrs start w|st w st' w' _ IH Hstep]; [simpl; lia|].
  apply loop_body_continue in Hstep as (_ & _ & _ & _ & _ & _ & _ & _ & _ & -> & _).
  lia.
Qed.

(** Whatever a pass does, it sends at most one request, it moves to the
    next page when it continues, and it does not run out of fuel. *)
Lemma loop_body_cases st w r w' :
  loop_body E query st w = (r, w') →
  r ≠ OutOfFuel
  ∧ n_post w' ≤ S (n_post w)
  ∧ query_cache w' = query_cache w
  ∧ (40 < page_number st → r = Returned (inr (df st)) ∧ w' = w)
  ∧ (∀ st', r = Returned (inl st') →
       page_number st' = page_number st + 1 ∧ page_number st ≤ 40).
Proof.
  intros Hrun. destruct (decide (40 < page_number st)) as [Hpage|Hpage].
  { rewrite loop_body_run in Hrun.
    rewrite (proj2 (Nat.ltb_lt 40 (page_number st))) in Hrun by done.
    injection Hrun as <- <-. split_and!; try done. lia. }
  assert (Hle : page_number st ≤ 40) by lia.
  pose proof Hrun as Hrun'. rewrite loop_body_run in Hrun'.
  rewrite (proj2 (Nat.ltb_ge 40 (page_number st))) in Hrun' by done.
  destruct (refresh_waf E st w) as [[st1| |] w1] eqn:Hwaf.
  - pose proof (refresh_waf_frame E _ _ _ _ Hwaf) as (Hn1 & Hc1 & _).
    destruct (query_toyota E _ _ _ w1) as [[result| |] w2] eqn:Hfetch.
    + clear Hrun'.
      rewrite (loop_body_fetched _ _ _ _ _ _ Hle Hwaf Hfetch) in Hrun.
      apply query_toyota_frame in Hfetch as (Hn2 & Hc2 & _).
      simpl in Hrun. destruct (_ =? _); injection Hrun as <- <-; simpl;
        split_and!; try done; try lia; try congruence.
      by intros ? [= <-].
    + apply query_toyota_frame in Hfetch as (Hn2 & Hc2 & _).
      injection Hrun' as <- <-. split_and!; try done; try lia; congruence.
    + by apply query_toyota_frame in Hfetch as (_ & _ & _ & ?).
  - apply refresh_waf_frame in Hwaf as (Hn1 & Hc1 & _).
    injection Hrun' as <- <-. split_and!; try done; lia.
  - by apply refresh_waf_frame in Hwaf as (_ & _ & _ & ? & _).
Qed.

(** A pass that gets past the refresh sends the query of its page. *)
Lemma loop_body_posted_fetch st w st1 w1 r w' :
  page_number st ≤ 40 →
  refresh_waf E st w = (Returned st1, w1) →
  loop_body E query st w = (r, w') →
  posted (trace w')
  = PyStr.replace "PAGENUMBER" (PyStr.str (page_number st)) query
    :: posted (trace w).
Proof.
  intros Hpage Hwaf. rewrite loop_body_run.
  rewrite (proj2 (Nat.ltb_ge 40 (page_number st))) by done. rewrite Hwaf.
  apply refresh_waf_frame in Hwaf as (_ & _ & <- & _ & Hsame).
  destruct (Hsame st1 eq_refl) as (_ & <- & _).
  destruct (query_toyota E _ _ _ w1) as [r2 w2] eqn:Hfetch.
  apply query_toyota_frame in Hfetch as (_ & _ & <- & _).
  destruct r2 as [result| |]; try by intros [= <- <-].
  simpl. by destruct (_ =? _); intros [= <- <-].
Qed.

Lemma loop_body_posted st w r w' :
  loop_body E query st w = (r, w') →
  ∃ new, posted (trace w') = new ++ posted (trace w)
         ∧ Forall (page_query query) new.
Proof.
  intros Hrun. destruct (decide (40 < page_number st)) as [Hpage|Hpage].
  { apply loop_body_cases in Hrun as (_ & _ & _ & Hbreak & _).
    destruct (Hbreak Hpage) as [_ ->]. by exists []. }
  destruct (refresh_waf E st w) as [r1 w1] eqn:Hwaf.
  destruct r1 as [st1| |].
  - eexists [_]. split.
    + apply (loop_body_posted_fetch st w st1 w1 r w'); [lia|done..].
    + repeat constructor. by eexists.
  - rewrite loop_body_run, Hwaf in Hrun.
    rewrite (proj2 (Nat.ltb_ge 40 (page_number st))) in Hrun by lia.
    injection Hrun as <- <-. exists [].
    by apply refresh_waf_frame in Hwaf as (_ & _ & -> & _).
  - by apply refresh_waf_frame in Hwaf as (_ & _ & _ & ? & _).
Qed.

(** A pass raises only what the WAF bypass or the request raises. *)
Lemma loop_body_raises st w e w' :
  loop_body E query st w = (Raised e, w') →
  e = WafError ∨ e = RequestException.
Proof.
  rewrite loop_body_run.
  destruct (40 <? page_number st); [done|].
  rewrite refresh_waf_run. cbv zeta.
  assert (Hfetch : ∀ st1 w1,
    match query_toyota E (page_number st1) query (headers st1) w1 with
    | (Returned result, w2) =>
        let df' := merge_page (df st1) result in
        if length df' =? last_run_counter st1
        then (Returned (inr df'), w2)
        else (Returned
                (inl {| df := df'; page_number := page_number st1 + 1;
                        headers := headers st1;
                        timer_start := timer_start st1;
                        last_run_counter := length df' |}),
              log (EvSleep 10) w2)
    | (Raised e, w2) => (Raised e, w2)
    | (OutOfFuel, w2) => (OutOfFuel, w2)
    end = (Raised e, w') → e = WafError ∨ e = RequestException).
  { intros st1 w1. rewrite query_toyota_run. cbv zeta.
    destruct (env_post E _ _ _) as [|[|result]];
      [intros [= <- <-]; by right|..]; cbv zeta;
      by destruct (_ =? _). }
  destruct (refresh_due _); [|apply Hfetch].
  destruct (env_waf E (n_waf w)) as [h|]; [apply Hfetch|].
  intros [= <- <-]. by left.
Qed.

(** Where nothing raises, a pass raises nothing. *)
Lemma loop_body_never_raises st w r w' e :
  never_raises E → loop_body E query st w = (r, w') → r ≠ Raised e.
Proof.
  intros (_ & _ & _ & _ & Hwaf & Hpost). rewrite loop_body_run.
  destruct (40 <? page_number st); [by intros [= <- <-]|].
  rewrite refresh_waf_run. cbv zeta.
  assert (Hfetch : ∀ st1 w1,
    match query_toyota E (page_number st1) query (headers st1) w1 with
    | (Returned result, w2) =>
        let df' := merge_page (df st1) result in
        if length df' =? last_run_counter st1
        then (Returned (inr df'), w2)
        else (Returned
                (inl {| df := df'; page_number := page_number st1 + 1;
                        headers := headers st1;
                        timer_start := timer_start st1;
                        last_run_counter := length df' |}),
              log (EvSleep 10) w2)
    | (Raised e, w2) => (Raised e, w2)
    | (OutOfFuel, w2) => (OutOfFuel, w2)
    end = (r, w') → r ≠ Raised e).
  { intros st1 w1. rewrite query_toyota_run. cbv zeta.
    destruct (env_post E _ _ _) as [|[|result]] eqn:Hp;
      [by apply Hpost in Hp|..]; cbv zeta;
      by destruct (_ =? _); intros [= <- <-]. }
  destruct (refresh_due _); [|apply Hfetch].
  destruct (env_waf E (n_waf w)) as [h|] eqn:Hh; [apply Hfetch|].
  specialize (Hwaf (n_waf w)). rewrite Hh in Hwaf. by apply is_Some_None in Hwaf.
Qed.

(** The frame a pass leaves extends the frame it found, and has no
    duplicate VIN. *)
Lemma loop_body_frame st w r w' d :
  reachable E query st w →
  loop_body E query st w = (r, w') →
  (∃ st', r = Returned (inl st') ∧ d = df st') ∨ r = Returned (inr d) →
  df st `prefix_of` d ∧ NoDup (vins d).
Proof.
  intros [Hnd Hcount]%reachable_inv Hrun Hd.
  destruct (decide (40 < page_number st)) as [Hpage|Hpage].
  { apply loop_body_cases in Hrun as (_ & _ & _ & Hbreak & _).
    destruct (Hbreak Hpage) as [-> _].
    destruct Hd as [(st' & [=] & _)|[= <-]]. done. }
  assert (Hle : page_number st ≤ 40) by lia.
  pose proof Hrun as Hrun'. rewrite loop_body_run in Hrun'.
  rewrite (proj2 (Nat.ltb_ge 40 (page_number st))) in Hrun' by done.
  destruct (refresh_waf E st w) as [[st1| |] w1] eqn:Hwaf;
    [|injection Hrun' as <- <-; by destruct Hd as [(? & [=] & _)|[=]]..].
  destruct (query_toyota E _ _ _ w1) as [[result| |] w2] eqn:Hfetch;
    [|injection Hrun' as <- <-; by destruct Hd as [(? & [=] & _)|[=]]..].
  clear Hrun'. rewrite (loop_body_fetched _ _ _ _ _ _ Hle Hwaf Hfetch) in Hrun.
  assert (Hgrow : df st `prefix_of` merge_page (df st) result
                  ∧ NoDup (vins (merge_page (df st) result))).
  { split; [|apply merge_page_NoDup]. rewrite merge_page_grows by done.
    by apply prefix_app_r. }
  simpl in Hrun. destruct (_ =? _); injection Hrun as <- <-.
  - by destruct Hd as [(? & [=] & _)|[= <-]].
  - by destruct Hd as [(? & [= <-] & ->)|[=]].
Qed.

(** ** The whole loop *)

(** From page [p] the loop makes at most [41 - p] passes that fetch. *)
Lemma while_true_terminates n st w :
  41 - page_number st ≤ n →
  ∃ r w',
    (∀ fuel, n < fuel → while_true E fuel query st w = (r, w'))
    ∧ r ≠ OutOfFuel
    ∧ n_post w' ≤ n_post w + (41 - page_number st)
    ∧ query_cache w' = query_cache w
    ∧ (never_raises E → ∃ d, r = Returned d).
Proof.
  revert st w. induction n as [|n IH]; intros st w Hn.
  - exists (Returned (df st)), w. split_and!; try done; [|lia|by eauto].
    intros [|fuel] Hfuel; [lia|]. rewrite while_true_S, loop_body_run.
    by rewrite (proj2 (Nat.ltb_lt 40 (page_number st))) by lia.
  - destruct (loop_body E query st w) as [r1 w1] eqn:Hrun.
    pose proof (loop_body_cases _ _ _ _ Hrun) as (Hfuel1 & Hposts & Hc & Hbreak & Hnext).
    assert (Hposts1 : n_post w1 ≤ n_post w + (41 - page_number st)).
    { destruct (decide (40 < page_number st)) as [Hp|Hp]; [|lia].
      destruct (Hbreak Hp) as [_ ->]. lia. }
    destruct r1 as [[st'|d]|e|]; [| | |done].
    + destruct (Hnext st' eq_refl) as [Hpage' Hpage].
      destruct (IH st' w1) as (r & w' & Hloop & Hfuel & Hposts' & Hc' & Hret);
        [lia|].
      exists r, w'. split_and!; try done; [|lia|congruence].
      intros [|fuel] Hlt; [lia|]. rewrite while_true_S, Hrun. apply Hloop. lia.
    + exists (Returned d), w1. split_and!; try done; [|by eauto].
      intros [|fuel] Hlt; [lia|]. by rewrite while_true_S, Hrun.
    + exists (Raised e), w1. split_and!; try done.
      * intros [|fuel] Hlt; [lia|]. by rewrite while_true_S, Hrun.
      * intros Hquiet. by destruct (loop_body_never_raises _ _ _ _ e Hquiet Hrun).
Qed.

Lemma while_true_posted fuel st w r w' :
  while_true E fuel query st w = (r, w') →
  ∃ new, posted (trace w') = new ++ posted (trace w)
         ∧ Forall (page_query query) new.
Proof.
  revert st w. induction fuel as [|fuel IH]; intros st w.
  { intros [= <- <-]. by exists []. }
  rewrite while_true_S.
  destruct (loop_body E query st w) as [r1 w1] eqn:Hrun.
  apply loop_body_posted in Hrun as (new1 & Hnew1 & Hall1).
  destruct r1 as [[st'|d]|e|]; try (intros [= <- <-]; by exists new1).
  intros (new & Hnew & Hall)%IH. exists (new ++ new1). split.
  - by rewrite Hnew, Hnew1, (assoc_L _).
  - by apply Forall_app.
Qed.

End Loop.

(** ** The stop conditions of the crawl *)

(** C1. Convergence. A pass whose merge leaves the frame as long as
    [last_run_counter] ends the loop there and returns the frame; and
    when the page fetched after a pass that continued lists no VIN that
    the page before it did not list (the same identifiers, or none),
    the loop returns the frame unchanged after that second fetch. *)
Theorem convergence_stops_crawl (E : Env) (query : string) :
  (∀ st w st1 w1 result w2 fuel,
     page_number st ≤ 40 →
     refresh_waf E st w = (Returned st1, w1) →
     query_toyota E (page_number st1) query (headers st1) w1
       = (Returned result, w2) →
     length (merge_page (df st) result) = last_run_counter st →
     while_true E (S fuel) query st w
       = (Returned (merge_page (df st) result), w2))
  ∧ (∀ st w sk wk page_k wk' st' w' st1 w1 page_k1 w2 fuel,
       reachable E query st w →
       refresh_waf E st w = (Returned sk, wk) →
       query_toyota E (page_number sk) query (headers sk) wk
         = (Returned page_k, wk') →
       loop_body E query st w = (Returned (inl st'), w') →
       page_number st' ≤ 40 →
       refresh_waf E st' w' = (Returned st1, w1) →
       query_toyota E (page_number st1) query (headers st1) w1
         = (Returned page_k1, w2) →
       (∀ v, v ∈ vins (page_records page_k1) → v ∈ vins (page_records page_k)) →
       while_true E (S fuel) query st' w' = (Returned (df st'), w2)
       ∧ length (df st') = last_run_counter st').
Proof.
  pose proof (while_true_converged E query) as Hstop.
  split; [exact Hstop|].
  intros st w sk wk page_k wk' st' w' st1 w1 page_k1 w2 fuel
    Hreach Hwaf Hfetch Hstep Hpage' Hwaf' Hfetch' Hsame.
  pose proof (loop_inv_continue E query _ _ _ _ Hstep) as [Hnd Hcount].
  pose proof (reachable_inv E query _ _ Hreach) as [Hnd0 _].
  apply loop_body_continue in Hstep
    as (Hpage & sk' & wk0 & page_k' & wk0' & Hwaf0 & Hfetch0 & _ & Hdf & _).
  rewrite Hwaf in Hwaf0. injection Hwaf0 as <- <-.
  rewrite Hfetch in Hfetch0. injection Hfetch0 as <- <-.
  assert (Hknown : merge_page (df st') page_k1 = df st').
  { apply merge_page_known; [done|]. intros v Hv. rewrite Hdf.
    by apply merge_page_covers, Hsame. }
  split; [|done].
  rewrite (Hstop _ _ _ _ _ _ fuel Hpage' Hwaf' Hfetch'); by rewrite Hknown.
Qed.

Lemma convergence_stops_crawl_witness :
  ∃ st' w' w2,
    loop_body Stub.same_ids_twice Stub.query Stub.entry Stub.world_at_entry
      = (Returned (inl st'), w')
    ∧ while_true Stub.same_ids_twice 1 Stub.query st' w'
      = (Returned [Stub.car_a; Stub.car_b], w2)
    ∧ n_post w2 = 2.
Proof.
  eexists _, _, _. split; [vm_compute; reflexivity|].
  split; [|shelve].
  refine (proj1 (proj2 (convergence_stops_crawl Stub.same_ids_twice Stub.query)
           Stub.entry Stub.world_at_entry _ _ _ _ _ _ _ _ _ _ 0
           (reachable_entry _ _ _ _ _) _ _ _ _ _ _ _)).
  - vm_compute; reflexivity.
  - vm_compute; reflexivity.
  - vm_compute; reflexivity.
  - vm_compute; lia.
  - vm_compute; reflexivity.
  - vm_compute; reflexivity.
  - intros v. simpl. rewrite !elem_of_cons. tauto.
  Unshelve. reflexivity.
Defined.

(** C2, as the code has it. A page for which [query_toyota] returns
    [None] (a challenge page, an envelope without records) raises
    nothing and adds no row; the frame is then as long as
    [last_run_counter], so the loop returns the frame accumulated so far
    after that one request, and no later page is fetched. *)
Theorem bad_page_ends_crawl (E : Env) (query : string) st w st1 w1 w2 fuel :
  reachable E query st w →
  page_number st ≤ 40 →
  refresh_waf E st w = (Returned st1, w1) →
  query_toyota E (page_number st1) query (headers st1) w1 = (Returned None, w2) →
  while_true E (S fuel) query st w = (Returned (df st), w2)
  ∧ n_post w2 = S (n_post w).
Proof.
  intros [Hnd Hcount]%reachable_inv Hpage Hwaf Hfetch.
  assert (Hsame : merge_page (df st) None = df st).
  { apply merge_page_known; [done|]. intros v Hv. by apply elem_of_nil in Hv. }
  split.
  - rewrite (while_true_converged E query _ _ _ _ _ _ fuel Hpage Hwaf Hfetch);
      by rewrite Hsame.
  - apply refresh_waf_frame in Hwaf as (<- & _).
    by apply query_toyota_frame in Hfetch as (-> & _).
Qed.

Lemma bad_page_ends_crawl_witness :
  ∃ st w w2,
    loop_body Stub.blocked_second_page Stub.query Stub.entry Stub.world_at_entry
      = (Returned (inl st), w)
    ∧ while_true Stub.blocked_second_page 1 Stub.query st w
      = (Returned [Stub.car_a], w2)
    ∧ n_post w2 = 2.
Proof.
  eexists _, _, _. split; [vm_compute; reflexivity|].
  refine (bad_page_ends_crawl Stub.blocked_second_page Stub.query _ _ _ _ _ 0
            (reachable_continue _ _ Stub.entry Stub.world_at_entry _ _
               (reachable_entry _ _ _ _ _) _) _ _ _).
  - vm_compute; reflexivity.
  - vm_compute; lia.
  - vm_compute; reflexivity.
  - vm_compute; reflexivity.
Defined.

(** C2 fails as stated: with a challenge page between two pages that
    each bring a new record, the crawl returns after two requests with
    one record, where the pages that can be fetched hold two. *)
Lemma bad_page_ends_crawl_counterexample :
  ∃ w',
    get_all_pages Stub.blocked_second_page 41 initial_world
      = (Returned [Stub.car_a], w')
    ∧ n_post w' = 2
    ∧ env_post Stub.blocked_second_page 2
        (PyStr.replace "PAGENUMBER" (PyStr.str 3) Stub.query)
        (headers Stub.entry) = Stub.page [Stub.car_b]
    ∧ length [Stub.car_a]
      ≠ length (drop_duplicates (concat [Stub.car_a] [Stub.car_b])).
Proof. eexists. split_and!; [vm_compute; reflexivity|done|done|vm_compute; lia]. Qed.

(** C3, as the code has it. [requests.post] is called outside the [try]
    of [query_toyota] and nothing in [get_all_pages] catches: when the
    request of a page raises, that one request is all that is sent and
    the exception leaves the loop. *)
Theorem request_exception_leaves_loop (E : Env) (query : string) st w st1 w1 fuel :
  page_number st ≤ 40 →
  refresh_waf E st w = (Returned st1, w1) →
  env_post E (n_post w1)
    (PyStr.replace "PAGENUMBER" (PyStr.str (page_number st)) query)
    (headers st1) = HttpRaises →
  ∃ w2,
    while_true E (S fuel) query st w = (Raised RequestException, w2)
    ∧ n_post w2 = S (n_post w)
    ∧ posted (trace w2)
      = PyStr.replace "PAGENUMBER" (PyStr.str (page_number st)) query
        :: posted (trace w).
Proof.
  intros Hpage Hwaf Hpost.
  pose proof (refresh_waf_frame E _ _ _ _ Hwaf) as (Hn & _ & Htr & _ & Hsame).
  destruct (Hsame st1 eq_refl) as (_ & Hpg & _).
  eexists. split_and!.
  - rewrite while_true_S, loop_body_run.
    rewrite (proj2 (Nat.ltb_ge 40 (page_number st))) by done.
    rewrite Hwaf, query_toyota_run. cbv zeta. rewrite Hpg, Hpost. done.
  - simpl. by rewrite Hn.
  - simpl. by rewrite Htr.
Qed.

Lemma request_exception_leaves_loop_witness :
  ∃ w2,
    while_true Stub.timeout_first_request 1 Stub.query Stub.entry
      Stub.world_at_entry = (Raised RequestException, w2)
    ∧ n_post w2 = 1
    ∧ posted (trace w2)
      = ["{ zip: 90210, model: sienna, miles: 100, page: 1, lead: lead-0 }"].
Proof.
  refine (request_exception_leaves_loop Stub.timeout_first_request Stub.query
            Stub.entry Stub.world_at_entry _ _ 0 _ _ _).
  - vm_compute; lia.
  - vm_compute; reflexivity.
  - vm_compute; reflexivity.
Defined.

(** C3 fails as stated: the first request times out, a second one would
    be answered, yet the crawl ends with the exception after a single
    request. *)
Lemma request_exception_leaves_loop_counterexample :
  ∃ w',
    get_all_pages Stub.timeout_first_request 41 initial_world
      = (Raised RequestException, w')
    ∧ n_post w' = 1
    ∧ env_post Stub.timeout_first_request 1
        (PyStr.replace "PAGENUMBER" (PyStr.str 1) Stub.query)
        (headers Stub.entry) = Stub.page [Stub.car_a].
Proof. eexists. split_and!; [vm_compute; reflexivity|done|done]. Qed.

(** ** Renewal of the WAF bypass *)

Lemma refresh_due_iff (elapsed_time : Q) :
  refresh_due elapsed_time = true ↔ Qlt renewal_threshold elapsed_time.
Proof.
  unfold refresh_due. rewrite negb_true_iff, <- not_true_iff_false, Qle_bool_iff.
  split; [apply Qnot_le_lt|apply Qlt_not_le].
Qed.

(** The test of line 101 in terms of the exact difference of the two
    readings: [elapsed_time > 4 * 60] holds when the readings are more
    than [240 + 2 ** -46] seconds apart, since a difference up to there
    is rounded to 240.0. *)
Lemma refresh_due_sub_iff (now start : Q) :
  refresh_due (Float.sub now start) = true
  ↔ Qlt (Qplus renewal_threshold (Float.pow2 (-46))) (Qminus now start).
Proof. rewrite refresh_due_iff. apply round_above_240. Qed.



(** Readings that are 240.0 seconds apart as floats do not renew, though
    the numbers they stand for are further apart: the headers and the
    start of the timer stay, and the WAF bypass is not run. *)
Example readings_240_apart_do_not_renew :
  let E := Stub.env (fun _ => Stub.blocked) (fun _ => Float.round (2403 # 10)) in
  let st := loop_entry [("x-aws-waf-token", "token-0")] (Float.round (3 # 10)) in
  ∃ w,
    refresh_waf E st Stub.world_at_entry = (Returned st, w)
    ∧ n_waf w = n_waf Stub.world_at_entry.
Proof. eexists. split; vm_compute; reflexivity. Qed.

(** ** The page ceiling *)

Lemma get_all_pages_run (E : Env) fuel w :
  get_all_pages E fuel w =
    match get_vehicles_query E w with
    | (Returned query, w1) =>
        match env_waf E (n_waf w1) with
        | Some hdrs =>
            while_true E fuel query
              (loop_entry hdrs (env_timer E (n_timer w1)))
              (count_timer (log EvWaf (count_waf w1)))
        | None => (Raised WafError, log EvWaf (count_waf w1))
        end
    | (Raised e, w1) => (Raised e, w1)
    | (OutOfFuel, w1) => (OutOfFuel, w1)
    end.
Proof.
  unfold get_all_pages, bind.
  destruct (get_vehicles_query E w) as [[query| |] w1]; try done.
  unfold waf_run, timer. by destruct (env_waf E (n_waf w1)).
Qed.

(** C5. Whatever the pages bring, [get_all_pages] ends: with fuel for 41
    passes it gives the same outcome as with any more, that outcome is a
    return or an exception of one of the calls, never a loop that goes
    on, and at most 40 requests have been sent. Where no call raises it
    returns a frame; and a pass entered beyond page 40 returns the frame
    as it stands. *)
Theorem page_ceiling_ends_crawl (E : Env) (w : World) :
  ∃ r w',
    (∀ fuel, 41 ≤ fuel → get_all_pages E fuel w = (r, w'))
    ∧ r ≠ OutOfFuel
    ∧ n_post w' ≤ n_post w + 40
    ∧ (never_raises E → ∃ d, r = Returned d)
    ∧ (∀ query st w0 fuel,
         40 < page_number st →
         while_true E (S fuel) query st w0 = (Returned (df st), w0)).
Proof.
  assert (Hceiling : ∀ query st w0 fuel,
    40 < page_number st →
    while_true E (S fuel) query st w0 = (Returned (df st), w0)).
  { intros query st w0 fuel Hpage. rewrite while_true_S, loop_body_run.
    by rewrite (proj2 (Nat.ltb_lt 40 (page_number st))) by done. }
  destruct (get_vehicles_query E w) as [r0 w1] eqn:Hquery.
  pose proof (get_vehicles_query_frame E _ _ _ Hquery)
    as (Hfuel0 & Hposts0 & _ & _ & Hret0).
  destruct r0 as [query| |]; [| |done].
  - destruct (env_waf E (n_waf w1)) as [hdrs|] eqn:Hwaf.
    + destruct (while_true_terminates E query 40
                  (loop_entry hdrs (env_timer E (n_timer w1)))
                  (count_timer (log EvWaf (count_waf w1))))
        as (r & w' & Hloop & Hfuel & Hposts & _ & Hret); [simpl; lia|].
      exists r, w'. split_and!; try done.
      * intros fuel Hge. rewrite get_all_pages_run, Hquery, Hwaf.
        apply Hloop. lia.
      * simpl in Hposts. lia.
    + exists (Raised WafError), (log EvWaf (count_waf w1)).
      split_and!; try done.
      * intros fuel _. by rewrite get_all_pages_run, Hquery, Hwaf.
      * simpl. lia.
      * intros (_ & _ & _ & _ & Hsome & _). specialize (Hsome (n_waf w1)).
        rewrite Hwaf in Hsome. by apply is_Some_None in Hsome.
  - exists (Raised e), w1. split_and!; try done.
    + intros fuel _. by rewrite get_all_pages_run, Hquery.
    + lia.
    + intros Hquiet. by destruct (Hret0 Hquiet).
Qed.

Lemma always_new_never_raises : never_raises Stub.always_new.
Proof.
  unfold never_raises, Stub.always_new, Stub.env, Stub.page. simpl.
  split_and!; eauto. 
Qed.

Lemma page_ceiling_ends_crawl_witness :
  ∃ d w',
    get_all_pages Stub.always_new 41 initial_world = (Returned d, w')
    ∧ n_post w' ≤ 40.
Proof.
  destruct (page_ceiling_ends_crawl Stub.always_new initial_world)
    as (r & w' & Hrun & _ & Hposts & Hret & _).
  destruct (Hret always_new_never_raises) as [d ->].
  exists d, w'. split; [apply Hrun; lia|exact Hposts].
Defined.

(** With one new record on every page the crawl stops at the ceiling
    with forty records, after forty requests. *)
Example always_new_forty_pages :
  ∃ d w',
    get_all_pages Stub.always_new 41 initial_world = (Returned d, w')
    ∧ length d = 40 ∧ n_post w' = 40.
Proof. eexists _, _. split_and!; [vm_compute; reflexivity|done..]. Qed.

(** ** The frame only grows *)

(** C6, as the code has it. In every pass of a run the frame after the
    merge has the frame before it as a prefix, so it is at least as
    long, and it has one row per VIN. A pass that breaks ends the loop
    with that frame as the result. A pass in which the WAF bypass or the
    request raises ends the loop with the exception: no frame is
    returned, the rows gathered so far are lost. *)
Theorem frame_never_shrinks (E : Env) (query : string) st w r w' :
  reachable E query st w →
  loop_body E query st w = (r, w') →
  match r with
  | Returned (inl st') =>
      length (df st) ≤ length (df st')
      ∧ df st `prefix_of` df st'
      ∧ NoDup (vins (df st'))
  | Returned (inr d) =>
      length (df st) ≤ length d
      ∧ df st `prefix_of` d
      ∧ NoDup (vins d)
      ∧ ∀ fuel, while_true E (S fuel) query st w = (Returned d, w')
  | Raised e =>
      (e = WafError ∨ e = RequestException)
      ∧ ∀ fuel, while_true E (S fuel) query st w = (Raised e, w')
  | OutOfFuel => False
  end.
Proof.
  intros Hreach Hrun.
  assert (Hloop : ∀ fuel,
    while_true E (S fuel) query st w =
      match r with
      | Returned (inl st') => while_true E fuel query st' w'
      | Returned (inr d) => (Returned d, w')
      | Raised e => (Raised e, w')
      | OutOfFuel => (OutOfFuel, w')
      end).
  { intros fuel. rewrite while_true_S, Hrun. by destruct r as [[?|?]| |]. }
  destruct r as [[st'|d]|e|].
  - destruct (loop_body_frame E query _ _ _ _ (df st') Hreach Hrun) as [Hpre Hnd];
      [by eauto|].
    split_and!; try done. by apply prefix_length.
  - destruct (loop_body_frame E query _ _ _ _ d Hreach Hrun) as [Hpre Hnd];
      [by eauto|].
    split_and!; try done. by apply prefix_length.
  - split; [by eapply loop_body_raises|done].
  - by apply loop_body_cases in Hrun as (Hfuel & _).
Qed.

Lemma frame_never_shrinks_witness :
  ∃ st w st' w',
    loop_body Stub.overlapping_pages Stub.query Stub.entry Stub.world_at_entry
      = (Returned (inl st), w)
    ∧ loop_body Stub.overlapping_pages Stub.query st w = (Returned (inl st'), w')
    ∧ df st = [Stub.car_a; Stub.car_b]
    ∧ df st' = [Stub.car_a; Stub.car_b; Stub.car_c]
    ∧ length (df st) ≤ length (df st')
    ∧ df st `prefix_of` df st'
    ∧ NoDup (vins (df st')).
Proof.
  eexists _, _, _, _.
  assert (Hfirst : loop_body Stub.overlapping_pages Stub.query Stub.entry
                     Stub.world_at_entry = (Returned (inl _), _))
    by (vm_compute; reflexivity).
  split; [exact Hfirst|]. split; [vm_compute; reflexivity|].
  split; [reflexivity|]. split; [reflexivity|].
  refine (frame_never_shrinks Stub.overlapping_pages Stub.query _ _
            (Returned (inl _)) _
            (reachable_continue _ _ Stub.entry Stub.world_at_entry _ _
               (reachable_entry _ _ _ _ _) Hfirst) _).
  vm_compute; reflexivity.
Defined.

(** C6 fails as stated: after two pages that each brought a record the
    third request times out; the pass is entered with two rows and the
    crawl ends with the exception, returning nothing. *)
Lemma frame_never_shrinks_counterexample :
  ∃ st w w',
    reachable Stub.timeout_third_request Stub.query st w
    ∧ df st = [Stub.car_a; Stub.car_b]
    ∧ loop_body Stub.timeout_third_request Stub.query st w
      = (Raised RequestException, w')
    ∧ get_all_pages Stub.timeout_third_request 41 initial_world
      = (Raised RequestException, w')
    ∧ n_post w' = 3.
Proof.
  eexists _, _, _.
  assert (Hfirst : loop_body Stub.timeout_third_request Stub.query Stub.entry
                     Stub.world_at_entry = (Returned (inl _), _))
    by (vm_compute; reflexivity).
  split.
  { refine (reachable_continue _ _ _ _ _ _
              (reachable_continue _ _ Stub.entry Stub.world_at_entry _ _
                 (reachable_entry _ _ _ _ _) Hfirst) _).
    vm_compute; reflexivity. }
  split; [reflexivity|]. split; [vm_compute; reflexivity|].
  split; [vm_compute; reflexivity|reflexivity].
Qed.

(** ** Merging a VIN that is already in the frame *)

(** C7, as the code has it. Merging records whose VINs are all in the
    frame leaves the frame as it is: the same length and, for every VIN,
    the row stored first ([drop_duplicates] keeps the first row of a
    VIN, so the newly fetched attributes are dropped, not stored).
    Merging the same page twice gives what merging it once gives. *)
Theorem merge_keeps_first_write (df : DataFrame) (known again : option LocateResult) :
  NoDup (vins df) →
  (∀ v, v ∈ vins (page_records known) → v ∈ vins df) →
  merge_page df known = df
  ∧ merge_page (merge_page df again) again = merge_page df again.
Proof.
  intros Hnd Hknown. split; [by apply merge_page_known|].
  apply merge_page_known; [apply merge_page_NoDup|].
  intros v Hv. by apply merge_page_covers.
Qed.

Lemma merge_keeps_first_write_witness :
  merge_page [Stub.car_a; Stub.car_b] (Stub.result [Stub.car_a_moved])
    = [Stub.car_a; Stub.car_b]
  ∧ merge_page (merge_page [Stub.car_a; Stub.car_b] (Stub.result [Stub.car_c]))
      (Stub.result [Stub.car_c])
    = merge_page [Stub.car_a; Stub.car_b] (Stub.result [Stub.car_c]).
Proof.
  apply (merge_keeps_first_write [Stub.car_a; Stub.car_b]
           (Stub.result [Stub.car_a_moved]) (Stub.result [Stub.car_c])).
  - apply (bool_decide_unpack _). vm_compute. exact I.
  - intros v. simpl. rewrite !elem_of_cons. tauto.
Defined.

(** C7 fails as stated: a record whose VIN is in the frame is merged
    with new attributes; the frame keeps its length, but the attributes
    stored for that VIN are the old ones, not the newly merged ones. *)
Lemma merge_keeps_first_write_counterexample :
  vin Stub.car_a_moved ∈ vins [Stub.car_a]
  ∧ merge_page [Stub.car_a] (Stub.result [Stub.car_a_moved]) = [Stub.car_a]
  ∧ columns <$> merge_page [Stub.car_a] (Stub.result [Stub.car_a_moved])
    ≠ [columns Stub.car_a_moved].
Proof. split_and!; [by left|done|done]. Qed.

(** ** Configuration *)

(** C8. When [MODEL], [ZIPCODE] or [DISTANCE] is unset or empty,
    [update_vehicles] leaves with [sys.exit] and the world is as it was:
    no request sent, no WAF bypass run, no file read, no clock read. *)
Theorem missing_parameter_exits_first (E : Env) (fuel : nat) (w : World) :
  PyStr.opt_truthy (MODEL E) = false
  ∨ PyStr.opt_truthy (ZIPCODE E) = false
  ∨ PyStr.opt_truthy (DISTANCE E) = false →
  ∃ msg, update_vehicles E fuel w = (Raised (SystemExit msg), w).
Proof.
  unfold update_vehicles, sys_exit, raise. intros Hmissing.
  destruct (PyStr.opt_truthy (MODEL E)); simpl; [|by eauto].
  destruct (PyStr.opt_truthy (ZIPCODE E)); simpl; [|by eauto].
  destruct (PyStr.opt_truthy (DISTANCE E)); simpl; [|by eauto].
  naive_solver.
Qed.

Lemma missing_parameter_exits_first_witness :
  ∃ msg,
    update_vehicles Stub.no_zipcode 41 initial_world
      = (Raised (SystemExit msg), initial_world).
Proof.
  apply (missing_parameter_exits_first Stub.no_zipcode 41 initial_world).
  right. left. reflexivity.
Defined.

Example empty_distance_exits :
  update_vehicles Stub.empty_distance 41 initial_world
  = (Raised (SystemExit "Set the DISTANCE environment variable first"),
     initial_world).
Proof. reflexivity. Qed.

(** ** The query is built once *)

Section QueryShared.

Variable E : Env.

Lemma refresh_waf_uuid st w r w' :
  refresh_waf E st w = (r, w') → n_uuid w' = n_uuid w.
Proof.
  rewrite refresh_waf_run. cbv zeta.
  destruct (refresh_due _); [destruct (env_waf E (n_waf w))|];
    by intros [= <- <-].
Qed.

Lemma query_toyota_uuid page query hdrs w r w' :
  query_toyota E page query hdrs w = (r, w') → n_uuid w' = n_uuid w.
Proof. rewrite query_toyota_run. cbv zeta. by intros [= <- <-]. Qed.

Lemma loop_body_uuid query st w r w' :
  loop_body E query st w = (r, w') → n_uuid w' = n_uuid w.
Proof.
  rewrite loop_body_run. destruct (40 <? page_number st); [by intros [= <- <-]|].
  destruct (refresh_waf E st w) as [r1 w1] eqn:Hwaf.
  apply refresh_waf_uuid in Hwaf as <-.
  destruct r1 as [st1| |]; try by intros [= <- <-].
  destruct (query_toyota E _ _ _ w1) as [r2 w2] eqn:Hfetch.
  apply query_toyota_uuid in Hfetch as <-.
  destruct r2 as [result| |]; try by intros [= <- <-].
  cbv zeta. by destruct (_ =? _); intros [= <- <-].
Qed.

(** The loop neither touches the memo cell nor draws a lead id. *)
Lemma while_true_query_state fuel query st w r w' :
  while_true E fuel query st w = (r, w') →
  query_cache w' = query_cache w ∧ n_uuid w' = n_uuid w.
Proof.
  revert st w. induction fuel as [|fuel IH]; intros st w.
  { by intros [= <- <-]. }
  rewrite while_true_S.
  destruct (loop_body E query st w) as [r1 w1] eqn:Hrun.
  pose proof (loop_body_uuid _ _ _ _ _ Hrun) as Huuid.
  apply loop_body_cases in Hrun as (_ & _ & Hcache & _).
  destruct r1 as [[st'|d]| |]; try by intros [= <- <-].
  intros [-> ->]%IH. done.
Qed.

End QueryShared.

(** C9. Once [get_vehicles_query] has returned a query, the memo cell
    holds it and every call made while it holds it returns that same
    string, without reading the template or drawing a lead id again. In
    a run of [get_all_pages] that starts with this first call, every
    request sent is that query with a page number in place of
    PAGENUMBER, no further lead id is drawn, and the memo cell still
    holds the query at the end, across all pages and renewals. *)
Theorem query_is_built_once (E : Env) (w : World) (q : string) (w1 : World) :
  get_vehicles_query E w = (Returned q, w1) →
  query_cache w1 = Some q
  ∧ (∀ w2, query_cache w2 = Some q → get_vehicles_query E w2 = (Returned q, w2))
  ∧ (∀ fuel r w',
       get_all_pages E fuel w = (r, w') →
       query_cache w' = Some q
       ∧ n_uuid w' = n_uuid w1
       ∧ ∃ new, posted (trace w') = new ++ posted (trace w)
                ∧ Forall (page_query q) new).
Proof.
  intros Hfirst.
  pose proof (get_vehicles_query_frame E _ _ _ Hfirst)
    as (_ & _ & Htrace & Hcache & _).
  specialize (Hcache q eq_refl). split_and!; [done| |].
  - intros w2. apply get_vehicles_query_hit.
  - intros fuel r w'. rewrite get_all_pages_run, Hfirst.
    destruct (env_waf E (n_waf w1)) as [hdrs|].
    + intros Hloop.
      pose proof (while_true_query_state E _ _ _ _ _ _ Hloop) as [Hc Hu].
      apply while_true_posted in Hloop as (new & Hnew & Hall).
      simpl in *. split_and!; [congruence|done|].
      exists new. by rewrite Hnew, Htrace.
    + intros [= <- <-]. simpl. split_and!; [done..|].
      exists []. by rewrite Htrace.
Qed.

Lemma query_is_built_once_witness :
  ∃ r w',
    get_all_pages Stub.always_new 41 initial_world = (r, w')
    ∧ get_vehicles_query Stub.always_new w' = (Returned Stub.query, w')
    ∧ n_uuid w' = 1.
Proof.
  destruct (get_all_pages Stub.always_new 41 initial_world) as [r w'] eqn:Hrun.
  exists r, w'. split; [reflexivity|].
  assert (Hfirst : get_vehicles_query Stub.always_new initial_world
                   = (Returned Stub.query, _)) by (vm_compute; reflexivity).
  destruct (query_is_built_once Stub.always_new initial_world Stub.query _ Hfirst)
    as (_ & Hagain & Hshared).
  destruct (Hshared 41 r w' Hrun) as (Hcache & Huuid & _).
  split; [exact (Hagain w' Hcache)|exact Huuid].
Defined.

(** The requests of a crawl over three pages: one lead id, three page
    numbers. *)
Example same_ids_twice_requests :
  posted (trace (get_all_pages Stub.same_ids_twice 41 initial_world).2)
  = ["{ zip: 90210, model: sienna, miles: 100, page: 2, lead: lead-0 }";
     "{ zip: 90210, model: sienna, miles: 100, page: 1, lead: lead-0 }"].
Proof. vm_compute. reflexivity. Qed.

(** ** [format_options] *)

Lemma entry_name_truthy item name :
  entry_name item = Some name → PyStr.truthy name = true.
Proof.
  unfold entry_name.
  destruct (marketingName item) as [[|c n]|],
    (marketingLongName item) as [[|c' n']|]; by intros [= <-].
Qed.

(** One step of the loop adds the entry's name, if it has one. *)
Lemma collect_options_cons acc item rest :
  collect_options acc (item :: rest)
  = collect_options (set_add acc (entry_name item)) rest.
Proof.
  simpl. unfold entry_name.
  by destruct (marketingName item) as [[|c n]|],
    (marketingLongName item) as [[|c' n']|].
Qed.

Lemma elem_of_collect_options acc options_raw name :
  name ∈ collect_options acc options_raw
  ↔ name ∈ acc ∨ ∃ item, item ∈ options_raw ∧ entry_name item = Some name.
Proof.
  revert acc. induction options_raw as [|item rest IH]; intros acc.
  - simpl. split; [by left|]. intros [?|(item & []%elem_of_nil & _)]. done.
  - rewrite collect_options_cons, IH. unfold set_add.
    setoid_rewrite elem_of_cons.
    destruct (entry_name item) as [n|] eqn:Hn.
    + rewrite elem_of_union, elem_of_singleton. naive_solver.
    + naive_solver.
Qed.

Lemma sorted_spec (names : gset string) :
  Sorted String.le (sorted names) ∧ NoDup (sorted names)
  ∧ ∀ name, name ∈ sorted names ↔ name ∈ names.
Proof.
  unfold sorted. split_and!.
  - apply Sorted_merge_sort. apply _.
  - rewrite merge_sort_Permutation. apply NoDup_elements.
  - intros name. rewrite merge_sort_Permutation. apply elem_of_elements.
Qed.

(** C10. [format_options] joins with " | " the names of the entries,
    each once, in ascending order; an entry's name is its
    [marketingName] when truthy, else its [marketingLongName] when
    truthy, and an entry without either adds nothing. The output
    depends only on which entries occur: reordering or repeating them
    does not change it. *)
Theorem format_options_sorted_distinct (options_raw : list OptionEntry) :
  (∃ names,
     format_options options_raw = PyStr.join " | " names
     ∧ Sorted String.le names ∧ NoDup names
     ∧ ∀ name, name ∈ names
         ↔ ∃ item, item ∈ options_raw ∧ entry_name item = Some name)
  ∧ (∀ other, (∀ item, item ∈ other ↔ item ∈ options_raw) →
       format_options other = format_options options_raw)
  ∧ (∀ other, other ≡ₚ options_raw →
       format_options other = format_options options_raw)
  ∧ format_options (options_raw ++ options_raw) = format_options options_raw.
Proof.
  assert (Hsame : ∀ other, (∀ item, item ∈ other ↔ item ∈ options_raw) →
                    format_options other = format_options options_raw).
  { intros other Heq. unfold format_options. f_equal. f_equal.
    apply set_eq. intros name. rewrite !elem_of_collect_options.
    setoid_rewrite Heq. done. }
  split_and!.
  - exists (sorted (collect_options ∅ options_raw)).
    destruct (sorted_spec (collect_options ∅ options_raw)) as (Hs & Hnd & Hin).
    split_and!; try done. intros name.
    rewrite Hin, elem_of_collect_options, elem_of_empty. naive_solver.
  - exact Hsame.
  - intros other Hperm. apply Hsame. intros item. by rewrite Hperm.
  - apply Hsame. intros item. rewrite elem_of_app. naive_solver.
Qed.

Lemma format_options_sorted_distinct_witness :
  format_options [Stub.floor_mats; Stub.roof_rack; Stub.floor_mats]
  = format_options [Stub.roof_rack; Stub.floor_mats].
Proof.
  apply (proj1 (proj2 (format_options_sorted_distinct
                         [Stub.roof_rack; Stub.floor_mats]))).
  intros item. rewrite !elem_of_cons. tauto.
Defined.

Example format_options_example :
  format_options
    [Stub.roof_rack; Stub.floor_mats; Stub.unnamed; Stub.roof_rack]
  = "All-Weather Floor Liners | Roof Rack".
Proof. vm_compute. reflexivity. Qed.

(** * Further properties *)

(** ** The frame operations *)

Lemma keep_first_sublist seen df : keep_first seen df `sublist_of` df.
Proof.
  revert seen. induction df as [|row rest IH]; intros seen; simpl; [done|].
  case_bool_decide; [by apply sublist_cons|by apply sublist_skip].
Qed.

Lemma keep_first_first seen df row :
  row ∈ keep_first seen df →
  (vin row ∉ seen)
  ∧ ∃ before after, df = before ++ row :: after ∧ vin row ∉ vins before.
Proof.
  revert seen. induction df as [|r rest IH]; intros seen; simpl.
  { by intros ?%elem_of_nil. }
  case_bool_decide as Hseen.
  - intros (Hfresh & before & after & -> & Hbefore)%IH. split; [done|].
    exists (r :: before), after. split; [done|]. simpl.
    rewrite not_elem_of_cons. split; [|done].
    intros Heq. by rewrite Heq in Hfresh.
  - intros [->|Hin]%elem_of_cons.
    + split; [done|]. exists [], rest. split; [done|]. apply not_elem_of_nil.
    + apply IH in Hin as (Hfresh & before & after & -> & Hbefore).
      apply not_elem_of_cons in Hfresh as [Hne Hfresh]. split; [done|].
      exists (r :: before), after. split; [done|]. simpl.
      by rewrite not_elem_of_cons.
Qed.

(** X1. [drop_duplicates] keeps, in their order, exactly the rows that
    are the first of their VIN: the result is a sublist of the frame
    with one row per VIN, every VIN of the frame is still there, each
    row kept has no earlier row of the same VIN, and dropping again
    changes nothing. *)
Theorem drop_duplicates_keeps_first (df : DataFrame) :
  drop_duplicates df `sublist_of` df
  ∧ NoDup (vins (drop_duplicates df))
  ∧ (∀ v, v ∈ vins (drop_duplicates df) ↔ v ∈ vins df)
  ∧ (∀ row, row ∈ drop_duplicates df →
       ∃ before after, df = before ++ row :: after ∧ vin row ∉ vins before)
  ∧ drop_duplicates (drop_duplicates df) = drop_duplicates df.
Proof.
  split_and!.
  - apply keep_first_sublist.
  - apply drop_duplicates_NoDup.
  - intros v. unfold drop_duplicates. rewrite elem_of_keep_first.
    split; [naive_solver|]. intros Hv. split; [done|apply not_elem_of_nil].
  - intros row Hrow. by apply keep_first_first in Hrow as [_ ?].
  - apply drop_duplicates_id, drop_duplicates_NoDup.
Qed.

Lemma elem_of_vins_merge_page df result v :
  v ∈ vins (merge_page df result)
  ↔ v ∈ vins df ∨ v ∈ vins (page_records result).
Proof.
  rewrite merge_page_records. unfold drop_duplicates.
  rewrite elem_of_keep_first. unfold concat, vins.
  rewrite fmap_app, elem_of_app. split; [naive_solver|].
  intros Hv. split; [done|apply not_elem_of_nil].
Qed.

Lemma merge_page_sublist df result :
  merge_page df result `sublist_of` df ++ page_records result.
Proof. rewrite merge_page_records. apply keep_first_sublist. Qed.

(** X2. Lines 110-117 take the union on VINs: a VIN is in the merged
    frame exactly when it was in the frame or is in the page, every row
    of the merged frame is a row of the frame or of the page, in that
    order, and no VIN occurs twice. *)
Theorem merge_page_is_union (df : DataFrame) (result : option LocateResult) :
  (∀ v, v ∈ vins (merge_page df result)
        ↔ v ∈ vins df ∨ v ∈ vins (page_records result))
  ∧ merge_page df result `sublist_of` df ++ page_records result
  ∧ NoDup (vins (merge_page df result)).
Proof.
  split_and!.
  - apply elem_of_vins_merge_page.
  - apply merge_page_sublist.
  - apply merge_page_NoDup.
Qed.

(** X3. The merge of lines 114-117, taken alone, does not depend on the
    order of two pages: merged into the same frame in either order they
    give frames with the same VINs and the same length. (The rows kept
    for a VIN listed on both pages may differ, and so may the result of
    a crawl, which stops at the first page that adds nothing: see
    [crawl_depends_on_page_order].) *)
Theorem merge_page_order_irrelevant (df : DataFrame) (first second : option LocateResult) :
  vins (merge_page (merge_page df first) second)
    ≡ₚ vins (merge_page (merge_page df second) first)
  ∧ length (merge_page (merge_page df first) second)
    = length (merge_page (merge_page df second) first).
Proof.
  assert (Hperm : vins (merge_page (merge_page df first) second)
                    ≡ₚ vins (merge_page (merge_page df second) first)).
  { apply NoDup_Permutation; [apply merge_page_NoDup..|].
    intros v. rewrite !elem_of_vins_merge_page. tauto. }
  split; [done|]. apply Permutation_length in Hperm.
  unfold vins in Hperm. by rewrite !length_fmap in Hperm.
Qed.

(** The crawl as a whole does depend on the order of the pages: a page
    that repeats a known VIN ends it, so the same three pages give one
    row in one order and two in the other. *)
Example crawl_depends_on_page_order :
  let repeat_first :=
    Stub.env (fun n =>
                match n with
                | 0 => Stub.page [Stub.car_a]
                | 1 => Stub.page [Stub.car_a_moved]
                | _ => Stub.page [Stub.car_b]
                end) Stub.steady_clock in
  let repeat_last :=
    Stub.env (fun n =>
                match n with
                | 0 => Stub.page [Stub.car_a]
                | 1 => Stub.page [Stub.car_b]
                | _ => Stub.page [Stub.car_a_moved]
                end) Stub.steady_clock in
  (get_all_pages repeat_first 41 initial_world).1 = Returned [Stub.car_a]
  ∧ (get_all_pages repeat_last 41 initial_world).1
    = Returned [Stub.car_a; Stub.car_b].
Proof. split; vm_compute; reflexivity. Qed.

(** ** [query_toyota] and [get_vehicles_query] *)

(** X4. [query_toyota] sends one request, the query of the page with
    the headers given, and changes nothing else. When the request
    raises, so does [query_toyota]: [requests.post] is outside the [try].
    When the body is not JSON or lacks the envelope, when
    "locateVehiclesByZip" is null, and when it is an object without a
    "vehicleSummary" key, whatever else it holds, [query_toyota] returns
    [None]; when it is an object with the key, it is returned as it is,
    also when the record list is empty. *)
Theorem query_toyota_classifies (E : Env) (page : nat) (query : string)
    (hdrs : Headers) (w : World) :
  let sent := page_request query page in
  let response := env_post E (n_post w) sent hdrs in
  ∃ r,
    query_toyota E page query hdrs w = (r, log (EvPost sent hdrs) (count_post w))
    ∧ (response = HttpRaises → r = Raised RequestException)
    ∧ (response = HttpResponse NoEnvelope → r = Returned None)
    ∧ (response = HttpResponse (LocateVehiclesByZip None) → r = Returned None)
    ∧ (∀ others,
         response = HttpResponse (LocateVehiclesByZip
                      (Some {| vehicleSummary := None; other_keys := others |})) →
         r = Returned None)
    ∧ (∀ records others,
         response = HttpResponse (LocateVehiclesByZip
                      (Some {| vehicleSummary := Some records;
                               other_keys := others |})) →
         r = Returned (Some {| vehicleSummary := Some records;
                               other_keys := others |})).
Proof.
  intros sent response. eexists. split; [apply query_toyota_run|].
  fold (page_request query page). fold sent response.
  split_and!; [intros ->..|intros others ->|intros records others ->]; done.
Qed.

Lemma query_toyota_Some (E : Env) page query hdrs w res w' :
  query_toyota E page query hdrs w = (Returned (Some res), w') →
  env_post E (n_post w) (page_request query page) hdrs
    = HttpResponse (LocateVehiclesByZip (Some res))
  ∧ ∃ records, vehicleSummary res = Some records.
Proof.
  rewrite query_toyota_run. cbv zeta. fold (page_request query page).
  destruct (env_post E _ _ _) as [|[|[[[records|] others]|]]]; simpl;
    intros [= <- <-]; eauto.
Qed.

(** X6. A call of [get_vehicles_query] that raises stores nothing, so
    the next call reads the template again. It raises [OSError] when the
    template cannot be read, and [TypeError] when the template was read
    and one of the three globals is [None]; in both cases the file was
    opened once and no lead id was drawn. *)
Theorem get_vehicles_query_failure (E : Env) (w : World) (e : Exn) (w' : World) :
  get_vehicles_query E w = (Raised e, w') →
  query_cache w = None
  ∧ query_cache w' = None
  ∧ n_file w' = S (n_file w)
  ∧ n_uuid w' = n_uuid w
  ∧ (e = OSError ∧ env_file E (n_file w) = None
     ∨ e = TypeError ∧ is_Some (env_file E (n_file w))
       ∧ (ZIPCODE E = None ∨ MODEL E = None ∨ DISTANCE E = None)).
Proof.
  unfold get_vehicles_query, cache.
  destruct (query_cache w) as [q|] eqn:Hcache; [done|].
  rewrite get_vehicles_query_body_run. cbv zeta.
  destruct (env_file E (n_file w)) as [text|].
  - destruct (ZIPCODE E) as [z|], (MODEL E) as [m|], (DISTANCE E) as [d|];
      intros [= <- <-]; simpl; split_and!; try done; right; eauto 6.
  - intros [= <- <-]. simpl. split_and!; try done. by left.
Qed.

Lemma get_vehicles_query_failure_witness :
  ∃ w',
    get_vehicles_query Sample.no_template initial_world = (Raised OSError, w')
    ∧ query_cache w' = None ∧ n_file w' = 1 ∧ n_uuid w' = 0.
Proof.
  eexists.
  assert (Hrun : get_vehicles_query Sample.no_template initial_world
                 = (Raised OSError, _)) by (vm_compute; reflexivity).
  destruct (get_vehicles_query_failure Sample.no_template initial_world _ _ Hrun)
    as (_ & Hcache & Hfile & Huuid & _).
  split; [exact Hrun|]. split; [exact Hcache|]. split; [exact Hfile|exact Huuid].
Defined.

(** ** Runs of the crawl loop *)

Arguments PyStr.replace : simpl never.

Section Runs.

Variable E : Env.
Variable query : string.

(** What a pass that fetches adds to the trace: a renewal or none, then
    the request, then the [sleep] if the loop goes on. *)
Lemma loop_body_trace st w r w' :
  loop_body E query st w = (r, w') →
  page_number st ≤ 40 →
  ∃ renew hdrs,
    (renew = [] ∧ hdrs = headers st
     ∨ renew = [EvWaf]
       ∧ refresh_due (Float.sub (env_timer E (n_timer w)) (timer_start st)) = true)
    ∧ n_waf w' = n_waf w + length renew
    ∧ (r = Raised WafError ∧ renew = [EvWaf]
       ∧ trace w' = renew ++ trace w ∧ n_post w' = n_post w
       ∨ n_post w' = S (n_post w)
         ∧ ∃ pause,
             trace w' = pause
                        ++ EvPost (page_request query (page_number st)) hdrs
                        :: renew ++ trace w
             ∧ (pause = []
                ∧ (r = Raised RequestException ∨ ∃ d, r = Returned (inr d))
                ∨ pause = [EvSleep 10]
                  ∧ ∃ st', r = Returned (inl st')
                      ∧ headers st' = hdrs
                      ∧ page_number st' = page_number st + 1
                      ∧ (renew = [] → timer_start st' = timer_start st))).
Proof.
  intros Hrun Hpage. rewrite loop_body_run in Hrun.
  rewrite (proj2 (Nat.ltb_ge 40 (page_number st))) in Hrun by done.
  rewrite refresh_waf_run in Hrun. cbv zeta in Hrun.
  destruct (refresh_due _) eqn:Hdue.
  - destruct (env_waf E (n_waf w)) as [new_headers|].
    + rewrite query_toyota_run in Hrun. cbv zeta in Hrun. simpl in Hrun.
      fold (page_request query (page_number st)) in Hrun.
      exists [EvWaf], new_headers. split; [by right|].
      destruct (env_post E _ _ _) as [|[|result]]; simpl in Hrun.
      { injection Hrun as <- <-. simpl. split; [lia|]. right.
        split; [done|]. exists []. eauto. }
      all: destruct (_ =? _); injection Hrun as <- <-; simpl;
        (split; [lia|]); right; (split; [done|]);
        [exists []; eauto 6|exists [EvSleep 10]; split; [done|]; right;
                            split; [done|]; eexists; split_and!; done].
    + injection Hrun as <- <-. exists [EvWaf], (headers st).
      split; [by right|]. simpl. split; [lia|]. by left.
  - rewrite query_toyota_run in Hrun. cbv zeta in Hrun. simpl in Hrun.
    fold (page_request query (page_number st)) in Hrun.
    exists [], (headers st). split; [by left|].
    destruct (env_post E _ _ _) as [|[|result]]; simpl in Hrun.
    { injection Hrun as <- <-. simpl. split; [lia|]. right.
      split; [done|]. exists []. eauto. }
    all: destruct (_ =? _); injection Hrun as <- <-; simpl;
      (split; [lia|]); right; (split; [done|]);
      [exists []; eauto 6|exists [EvSleep 10]; split; [done|]; right;
                          split; [done|]; eexists; split_and!; done].
Qed.

(** A property of the world kept by every pass holds when the loop
    ends, however it ends. *)
Lemma while_true_run_ind (I : Locals → World → Prop) (F : World → Prop) :
  (∀ st w, I st w → F w) →
  (∀ st w r w', I st w → loop_body E query st w = (r, w') →
     match r with Returned (inl st') => I st' w' | _ => F w' end) →
  ∀ fuel st w r w',
    I st w → while_true E fuel query st w = (r, w') → F w'.
Proof.
  intros Hstop Hpass fuel. induction fuel as [|fuel IH]; intros st w r w' Hinv.
  { intros [= <- <-]. by eapply Hstop. }
  rewrite while_true_S.
  destruct (loop_body E query st w) as [r1 w1] eqn:Hrun.
  specialize (Hpass _ _ _ _ Hinv Hrun).
  destruct r1 as [[st'|d]| |]; try by intros [= <- <-].
  by apply IH.
Qed.

(** A property of the frame kept by every pass holds of the frame
    returned. *)
Lemma while_true_returns (I : Locals → World → Prop) (P : DataFrame → Prop) :
  (∀ st w st' w', I st w →
     loop_body E query st w = (Returned (inl st'), w') → I st' w') →
  (∀ st w d w', I st w →
     loop_body E query st w = (Returned (inr d), w') → P d) →
  ∀ fuel st w d w',
    I st w → while_true E fuel query st w = (Returned d, w') → P d.
Proof.
  intros Hcont Hbreak fuel. induction fuel as [|fuel IH]; intros st w d w' Hinv.
  { by intros [=]. }
  rewrite while_true_S.
  destruct (loop_body E query st w) as [r1 w1] eqn:Hrun.
  destruct r1 as [[st'|d']| |]; try by intros [=].
  - apply IH. by eapply Hcont.
  - intros [= <- <-]. by eapply Hbreak.
Qed.

(** A pass that breaks after a fetch returns the merged frame. *)
Lemma loop_body_break st w d w' :
  loop_body E query st w = (Returned (inr d), w') →
  d = df st
  ∨ ∃ st1 w1 result,
      query_toyota E (page_number st1) query (headers st1) w1
        = (Returned result, w')
      ∧ d = merge_page (df st) result.
Proof.
  intros Hrun. destruct (decide (40 < page_number st)) as [Hpage|Hpage].
  { apply loop_body_cases in Hrun as (_ & _ & _ & Hbreak & _).
    destruct (Hbreak Hpage) as [[= ->] _]. by left. }
  assert (Hle : page_number st ≤ 40) by lia. right.
  pose proof Hrun as Hrun'. rewrite loop_body_run in Hrun'.
  rewrite (proj2 (Nat.ltb_ge 40 (page_number st))) in Hrun' by done.
  destruct (refresh_waf E st w) as [[st1| |] w1] eqn:Hwaf; try done.
  destruct (query_toyota E _ _ _ w1) as [[result| |] w2] eqn:Hfetch; try done.
  clear Hrun'. rewrite (loop_body_fetched _ _ _ _ _ _ _ _ Hle Hwaf Hfetch) in Hrun.
  simpl in Hrun. destruct (_ =? _); [|done]. injection Hrun as <- <-.
  by exists st1, w1, result.
Qed.

Lemma merge_page_delivered df result :
  (∀ row, row ∈ df → delivered E row) →
  (∀ res, result = Some res →
     ∃ n sent hdrs, env_post E n sent hdrs
                    = HttpResponse (LocateVehiclesByZip (Some res))) →
  ∀ row, row ∈ merge_page df result → delivered E row.
Proof.
  intros Hdf Hres row Hrow.
  pose proof (elem_of_sublist _ _ _ Hrow (merge_page_sublist df result)) as Hin.
  clear Hrow; rename Hin into Hrow.
  apply elem_of_app in Hrow as [Hrow|Hrow]; [by apply Hdf|].
  destruct result as [res|]; [|by apply elem_of_nil in Hrow].
  destruct (Hres res eq_refl) as (n & sent & hdrs & Hpost).
  simpl in Hrow. destruct (vehicleSummary res) as [records|] eqn:Hrecords;
    [|by apply elem_of_nil in Hrow].
  by exists n, sent, hdrs, res, records.
Qed.

Lemma query_toyota_delivers page hdrs w result w' :
  query_toyota E page query hdrs w = (Returned result, w') →
  ∀ res, result = Some res →
    ∃ n sent hdrs', env_post E n sent hdrs'
                    = HttpResponse (LocateVehiclesByZip (Some res)).
Proof.
  intros Hfetch res ->. apply query_toyota_Some in Hfetch as [Hpost _]. eauto.
Qed.

End Runs.

(** ** Whole crawls *)

Lemma get_vehicles_query_trace (E : Env) w r w' :
  get_vehicles_query E w = (r, w') →
  n_waf w' = n_waf w ∧ n_timer w' = n_timer w ∧ n_post w' = n_post w
  ∧ (trace w' = trace w ∨ trace w' = EvReadQuery :: trace w).
Proof.
  unfold get_vehicles_query, cache. destruct (query_cache w) as [q|].
  { intros [= <- <-]. split_and!; try done. by left. }
  rewrite get_vehicles_query_body_run. cbv zeta.
  destruct (env_file E (n_file w)) as [text|];
    [destruct (ZIPCODE E), (MODEL E), (DISTANCE E)|];
    intros [= <- <-]; simpl; split_and!; try done; by right.
Qed.

Lemma while_true_raises (E : Env) query fuel st w e w' :
  while_true E fuel query st w = (Raised e, w') →
  e = WafError ∨ e = RequestException.
Proof.
  revert st w. induction fuel as [|fuel IH]; intros st w; [done|].
  rewrite while_true_S.
  destruct (loop_body E query st w) as [r1 w1] eqn:Hrun.
  destruct r1 as [[st'|d]|e1|]; try done; [by apply IH|].
  intros [= -> ->]. destruct (decide (40 < page_number st)) as [Hpage|Hpage].
  { apply loop_body_cases in Hrun as (_ & _ & _ & Hbreak & _).
    by destruct (Hbreak Hpage) as [[=] _]. }
  apply loop_body_trace in Hrun as (renew & hdrs & _ & _ & Hcases); [|lia].
  destruct Hcases as [([= ->] & _)|(_ & pause & _ & [(_ & [[= ->]|[d [=]]])
                                                    |(_ & st' & [=] & _)])];
    eauto.
Qed.

(** X7. The frame that [get_all_pages] returns has one row per VIN. *)
Theorem crawl_returns_distinct_vins (E : Env) fuel w d w' :
  get_all_pages E fuel w = (Returned d, w') → NoDup (vins d).
Proof.
  rewrite get_all_pages_run.
  destruct (get_vehicles_query E w) as [[query| |] w1]; try done.
  destruct (env_waf E (n_waf w1)) as [hdrs|]; [|done].
  apply (while_true_returns E query (reachable E query) (λ d, NoDup (vins d))).
  - intros st w0 st' w0' Hreach Hstep. by eapply reachable_continue.
  - intros st w0 d0 w0' Hreach Hstep.
    by apply (loop_body_frame E query _ _ _ _ d0 Hreach Hstep); right.
  - apply reachable_entry.
Qed.

Lemma crawl_returns_distinct_vins_witness :
  NoDup (vins [Stub.car_a; Stub.car_b]).
Proof.
  refine (crawl_returns_distinct_vins Stub.same_ids_twice 41 initial_world _ _ _).
  vm_compute; reflexivity.
Defined.

(** X8. Every row of the frame that [get_all_pages] returns is a record
    of the "vehicleSummary" list of some response: the crawl makes up no
    row and changes none. *)
Theorem crawl_returns_delivered_rows (E : Env) fuel w d w' :
  get_all_pages E fuel w = (Returned d, w') →
  ∀ row, row ∈ d → delivered E row.
Proof.
  rewrite get_all_pages_run.
  destruct (get_vehicles_query E w) as [[query| |] w1]; try done.
  destruct (env_waf E (n_waf w1)) as [hdrs|]; [|done].
  apply (while_true_returns E query
           (λ st _, ∀ row, row ∈ df st → delivered E row)
           (λ d, ∀ row, row ∈ d → delivered E row)).
  - intros st w0 st' w0' Hinv
      (_ & st1 & w2 & result & w3 & _ & Hfetch & _ & -> & _)%loop_body_continue.
    apply merge_page_delivered; [done|].
    by eapply query_toyota_delivers.
  - intros st w0 d0 w0' Hinv
      [->|(st1 & w2 & result & Hfetch & ->)]%loop_body_break; [done|].
    apply merge_page_delivered; [done|].
    by eapply query_toyota_delivers.
  - simpl. by intros row ?%elem_of_nil.
Qed.

Lemma crawl_returns_delivered_rows_witness :
  delivered Stub.same_ids_twice Stub.car_a
  ∧ delivered Stub.same_ids_twice Stub.car_b.
Proof.
  assert (Hrun : get_all_pages Stub.same_ids_twice 41 initial_world
                 = (Returned [Stub.car_a; Stub.car_b], _))
    by (vm_compute; reflexivity).
  split;
    apply (crawl_returns_delivered_rows Stub.same_ids_twice 41 initial_world
             _ _ Hrun); [left|right; left].
Defined.

Lemma posted_renew renew tr :
  renew = [] ∨ renew = [EvWaf] → posted (renew ++ tr) = posted tr.
Proof. by intros [->| ->]. Qed.

Lemma renew_cases renew (hdrs hdrs0 : Headers) (P : Prop) :
  renew = [] ∧ hdrs = hdrs0 ∨ renew = [EvWaf] ∧ P →
  renew = [] ∨ renew = [EvWaf].
Proof. naive_solver. Qed.

Lemma pages_snoc query k (tail : list string) :
  (page_request query <$> reverse (seq 1 (S k))) ++ tail
  = page_request query (1 + k)
    :: (page_request query <$> reverse (seq 1 k)) ++ tail.
Proof. by rewrite seq_S, reverse_app. Qed.

(** X9. The requests of a crawl are for pages 1, 2, ..., k in this
    order, each once, with k at most 40: no page is skipped, repeated or
    asked for again after a failure. *)
Theorem crawl_requests_pages_in_order (E : Env) fuel w r w' :
  get_all_pages E fuel w = (r, w') →
  ∃ query k,
    k ≤ 40
    ∧ n_post w' = n_post w + k
    ∧ posted (trace w')
      = (page_request query <$> reverse (seq 1 k)) ++ posted (trace w).
Proof.
  rewrite get_all_pages_run.
  destruct (get_vehicles_query E w) as [r1 w1] eqn:Hquery.
  pose proof (get_vehicles_query_frame E _ _ _ Hquery) as (_ & Hn & Hposted & _).
  destruct r1 as [query| |];
    [|intros [= <- <-]; exists "", 0; split_and!; [lia|lia|done]..].
  destruct (env_waf E (n_waf w1)) as [hdrs|];
    [|intros [= <- <-]; exists "", 0; split_and!; [lia|simpl; lia|done]].
  intros Hloop. exists query.
  apply (while_true_run_ind E query
    (λ st w0, ∃ k, page_number st = 1 + k ∧ k ≤ 40
                   ∧ n_post w0 = n_post w + k
                   ∧ posted (trace w0)
                     = (page_request query <$> reverse (seq 1 k))
                       ++ posted (trace w))
    (λ w0, ∃ k, k ≤ 40 ∧ n_post w0 = n_post w + k
                ∧ posted (trace w0)
                  = (page_request query <$> reverse (seq 1 k))
                    ++ posted (trace w))) in Hloop; [done| | |].
  - intros st w0 (k & _ & Hk & Hnk & Htr). eauto.
  - intros st w0 r0 w0' (k & Hpage & Hk & Hnk & Htr) Hrun.
    destruct (decide (40 < page_number st)) as [Hceil|Hceil].
    { apply loop_body_cases in Hrun as (_ & _ & _ & Hbreak & _).
      destruct (Hbreak Hceil) as [-> ->]. eauto. }
    apply loop_body_trace in Hrun as (renew & h & Hrenew & _ & Hcases); [|lia].
    apply renew_cases in Hrenew.
    destruct Hcases as [(-> & _ & Htr' & Hn')|(Hn' & pause & Htr' & Hpause)].
    { exists k. split_and!; [done|lia|]. by rewrite Htr', posted_renew. }
    assert (Hposted' : posted (trace w0')
                       = (page_request query <$> reverse (seq 1 (S k)))
                         ++ posted (trace w)).
    { rewrite pages_snoc, <- Hpage, <- Htr, Htr'.
      destruct Hpause as [[-> _]|[-> _]]; simpl; by rewrite posted_renew. }
    destruct Hpause as [[_ [->|[d ->]]]|[_ (st' & -> & _ & Hpage' & _)]].
    + exists (S k). split_and!; [lia|lia|done].
    + exists (S k). split_and!; [lia|lia|done].
    + exists (S k). split_and!; [lia|lia|lia|done].
  - exists 0. simpl. split_and!; [done|lia|lia|done].
Qed.

Lemma crawl_requests_pages_in_order_witness :
  let w' := (get_all_pages Sample.three_pages 41 initial_world).2 in
  ∃ query k,
    k ≤ 40
    ∧ n_post w' = n_post initial_world + k
    ∧ posted (trace w')
      = (page_request query <$> reverse (seq 1 k))
        ++ posted (trace initial_world).
Proof.
  refine (crawl_requests_pages_in_order Sample.three_pages 41 initial_world
            (get_all_pages Sample.three_pages 41 initial_world).1 _ _).
  apply surjective_pairing.
Defined.

Example three_pages_in_order :
  posted (trace (get_all_pages Sample.three_pages 41 initial_world).2)
  = page_request Stub.query <$> [4; 3; 2; 1].
Proof. vm_compute. reflexivity. Qed.

Lemma spaced_weaken tr : spaced true tr = true → spaced false tr = true.
Proof.
  induction tr as [|[| |sent hdrs|seconds| |] tr IH]; simpl; try done.
  by destruct (seconds <? 10).
Qed.

Lemma spaced_renew pending renew tr :
  renew = [] ∨ renew = [EvWaf] →
  spaced pending (renew ++ tr) = spaced pending tr.
Proof. by intros [->| ->]. Qed.

Lemma while_true_spaced (E : Env) query fuel st w r w' :
  while_true E fuel query st w = (r, w') →
  ∃ new, trace w' = new ++ trace w ∧ spaced false new = true.
Proof.
  intros Hloop.
  apply (while_true_run_ind E query
    (λ _ w0, ∃ new, trace w0 = new ++ trace w ∧ spaced true new = true)
    (λ w0, ∃ new, trace w0 = new ++ trace w ∧ spaced false new = true))
    in Hloop; [done| | |by exists []].
  - intros _ w0 (new & Hnew & Hsp). exists new. split; [done|].
    by apply spaced_weaken.
  - intros st0 w0 r0 w0' (new & Hnew & Hsp) Hrun.
    destruct (decide (40 < page_number st0)) as [Hceil|Hceil].
    { apply loop_body_cases in Hrun as (_ & _ & _ & Hbreak & _).
      destruct (Hbreak Hceil) as [-> ->]. exists new. split; [done|].
      by apply spaced_weaken. }
    apply loop_body_trace in Hrun as (renew & h & Hrenew & _ & Hcases); [|lia].
    apply renew_cases in Hrenew.
    destruct Hcases as [(-> & _ & Htr' & _)|(_ & pause & Htr' & Hpause)].
    { exists (renew ++ new). rewrite Htr', Hnew, (assoc_L _). split; [done|].
      rewrite spaced_renew by done. by apply spaced_weaken. }
    destruct Hpause as [[-> Hr]|[-> (st' & -> & _)]].
    + assert (Hgoal : spaced false
                (EvPost (page_request query (page_number st0)) h :: renew ++ new)
              = true) by (simpl; by rewrite spaced_renew).
      destruct Hr as [->|[d ->]];
        (exists (EvPost (page_request query (page_number st0)) h :: renew ++ new);
         split; [|exact Hgoal]; rewrite Htr', Hnew; simpl; by rewrite (assoc_L _)).
    + exists (EvSleep 10 :: EvPost (page_request query (page_number st0)) h
              :: renew ++ new).
      split; [rewrite Htr', Hnew; simpl; by rewrite (assoc_L _)|].
      simpl. by rewrite spaced_renew.
Qed.

(** X10. Between any two requests of a crawl there is a [sleep] of ten
    seconds: read from its end, the trace of a run never shows a request
    followed, further back, by another request with no such [sleep]
    between them. *)
Theorem crawl_requests_are_spaced (E : Env) fuel w r w' :
  get_all_pages E fuel w = (r, w') →
  ∃ new, trace w' = new ++ trace w ∧ spaced false new = true.
Proof.
  rewrite get_all_pages_run.
  destruct (get_vehicles_query E w) as [r1 w1] eqn:Hquery.
  apply get_vehicles_query_trace in Hquery as (_ & _ & _ & Htr).
  assert (Hpre : ∃ pre, trace w1 = pre ++ trace w
                        ∧ ∀ pending tail, spaced pending (pre ++ tail)
                                          = spaced pending tail).
  { destruct Htr as [->| ->]; [by exists []|by exists [EvReadQuery]]. }
  destruct Hpre as (pre & Hpre & Hskip).
  destruct r1 as [query| |];
    [|intros [= <- <-]; exists pre; split; [done|];
      by rewrite <- (app_nil_r pre), Hskip..].
  destruct (env_waf E (n_waf w1)) as [hdrs|].
  - intros (new & Hnew & Hsp)%while_true_spaced. simpl in Hnew.
    exists (new ++ EvWaf :: pre). split.
    + by rewrite Hnew, Hpre, <- (assoc_L _).
    + clear -Hsp Hskip.
      assert (Hgen : ∀ pending, spaced pending new = true →
                spaced pending (new ++ EvWaf :: pre) = true).
      { clear Hsp.
        induction new as [|[| |sent h|seconds| |] new IH]; intros pending;
          simpl; try (by apply IH).
        - intros _. by rewrite <- (app_nil_r pre), Hskip.
        - intros [Hp Hrest]%andb_true_iff. rewrite Hp. simpl. by apply IH. }
      by apply Hgen.
  - intros [= <- <-]. simpl. exists (EvWaf :: pre). split; [by rewrite Hpre|].
    simpl. by rewrite <- (app_nil_r pre), Hskip.
Qed.

Lemma crawl_requests_are_spaced_witness :
  let w' := (get_all_pages Sample.three_pages 41 initial_world).2 in
  ∃ new, trace w' = new ++ trace initial_world ∧ spaced false new = true.
Proof.
  refine (crawl_requests_are_spaced Sample.three_pages 41 initial_world
            (get_all_pages Sample.three_pages 41 initial_world).1 _ _).
  apply surjective_pairing.
Defined.

Example back_to_back_requests_are_not_spaced :
  spaced false [EvPost "page 2" []; EvWaf; EvPost "page 1" []] = false
  ∧ spaced false [EvPost "page 2" []; EvSleep 5; EvPost "page 1" []] = false
  ∧ spaced false [EvPost "page 2" []; EvSleep 10; EvPost "page 1" []] = true.
Proof. done. Qed.

Lemma posted_headers_renew renew tr :
  renew = [] ∨ renew = [EvWaf] →
  posted_headers (renew ++ tr) = posted_headers tr.
Proof. by intros [->| ->]. Qed.

(** X11. A crawl during which the clock never shows more than four
    minutes between two readings runs the WAF bypass once, before the
    first request, and sends every request with the headers that run
    gave. *)
Theorem calm_crawl_uses_one_bypass (E : Env) fuel w query w1 hdrs r w' :
  (∀ n m, Qle (Qminus (env_timer E n) (env_timer E m)) renewal_threshold) →
  get_vehicles_query E w = (Returned query, w1) →
  env_waf E (n_waf w) = Some hdrs →
  get_all_pages E fuel w = (r, w') →
  n_waf w' = S (n_waf w)
  ∧ ∃ k, posted_headers (trace w') = replicate k hdrs ++ posted_headers (trace w).
Proof.
  intros Hcalm Hquery Hwaf. rewrite get_all_pages_run, Hquery.
  pose proof (get_vehicles_query_trace E _ _ _ Hquery) as (Hnw & _ & _ & Htr).
  rewrite Hnw, Hwaf. intros Hloop.
  assert (Htr1 : posted_headers (trace w1) = posted_headers (trace w))
    by (by destruct Htr as [->| ->]).
  apply (while_true_run_ind E query
    (λ st w0, headers st = hdrs
              ∧ (∃ m, timer_start st = env_timer E m)
              ∧ n_waf w0 = S (n_waf w)
              ∧ ∃ k, posted_headers (trace w0)
                     = replicate k hdrs ++ posted_headers (trace w))
    (λ w0, n_waf w0 = S (n_waf w)
           ∧ ∃ k, posted_headers (trace w0)
                  = replicate k hdrs ++ posted_headers (trace w)))
    in Hloop; [done| | |].
  - by intros st w0 (_ & _ & ? & ?).
  - intros st w0 r0 w0' (Hh & [m Hstart] & Hn & k & Hk) Hrun.
    destruct (decide (40 < page_number st)) as [Hceil|Hceil].
    { apply loop_body_cases in Hrun as (_ & _ & _ & Hbreak & _).
      destruct (Hbreak Hceil) as [-> ->]. eauto. }
    apply loop_body_trace in Hrun as (renew & h & Hrenew & Hn' & Hcases); [|lia].
    destruct Hrenew as [[-> ->]|[_ Hdue]].
    2:{ apply refresh_due_iff in Hdue. rewrite Hstart in Hdue.
        destruct (Qlt_not_le _ _ Hdue (sub_within_threshold _ _ (Hcalm _ _))). }
    simpl in Hn'. rewrite Nat.add_0_r in Hn'.
    destruct Hcases as [(_ & [=] & _)|(_ & pause & Htr' & Hpause)].
    assert (Hposted : posted_headers (trace w0')
                      = replicate (S k) hdrs ++ posted_headers (trace w)).
    { rewrite Htr', Hh. simpl. rewrite <- Hk.
      by destruct Hpause as [[-> _]|[-> _]]. }
    destruct Hpause as [[_ [->|[d ->]]]|[_ (st' & -> & Hh' & _ & Hstart')]].
    + split; [lia|eauto].
    + split; [lia|eauto].
    + split_and!; [congruence| |lia|eauto].
      exists m. by rewrite Hstart'.
  - simpl. split_and!; [done|by eauto|lia|]. exists 0. by rewrite Htr1.
Qed.

Lemma calm_crawl_uses_one_bypass_witness :
  let w' := (get_all_pages Sample.three_pages 41 initial_world).2 in
  n_waf w' = 1
  ∧ ∃ k, posted_headers (trace w')
         = replicate k [("x-aws-waf-token", "token-0")]
           ++ posted_headers (trace initial_world).
Proof.
  refine (calm_crawl_uses_one_bypass Sample.three_pages 41 initial_world
            Stub.query _ [("x-aws-waf-token", "token-0")]
            (get_all_pages Sample.three_pages 41 initial_world).1 _ _ _ _ _).
  - intros n m. vm_compute. discriminate.
  - vm_compute; reflexivity.
  - reflexivity.
  - apply surjective_pairing.
Defined.

(** ** [update_vehicles] *)

Lemma opt_truthy_Some (value : option string) :
  PyStr.opt_truthy value = true → ∃ s, value = Some s.
Proof. destruct value; [by eauto|done]. Qed.

(** With the three globals truthy, [update_vehicles] is what follows
    its three tests. *)
Lemma update_vehicles_run (E : Env) fuel w :
  PyStr.opt_truthy (MODEL E) = true →
  PyStr.opt_truthy (ZIPCODE E) = true →
  PyStr.opt_truthy (DISTANCE E) = true →
  update_vehicles E fuel w =
    match get_all_pages E fuel w with
    | (Returned [], w1) => (Returned tt, w1)
    | (Returned d, w1) =>
        match env_to_json_raw E d with
        | Some e => (Raised e, log (EvToJsonRaw d) w1)
        | None =>
            (match env_to_csv_simple E d with
             | Some e => Raised e
             | None => Returned tt
             end,
             log (EvToCsvSimple d) (log (EvToJsonRaw d) w1))
        end
    | (Raised e, w1) => (Raised e, w1)
    | (OutOfFuel, w1) => (OutOfFuel, w1)
    end.
Proof.
  intros Hm Hz Hd. unfold update_vehicles. rewrite Hm, Hz, Hd. simpl.
  unfold bind. destruct (get_all_pages E fuel w) as [[[|row d]| |] w1]; try done.
  unfold to_json_raw, to_csv_simple. cbv zeta.
  destruct (env_to_json_raw E (row :: d)); [done|].
  by destruct (env_to_csv_simple E (row :: d)).
Qed.

Lemma while_true_bypass_count (E : Env) query fuel st w r w' :
  while_true E fuel query st w = (r, w') → n_waf w ≤ n_waf w'.
Proof.
  apply (while_true_run_ind E query
           (λ _ w0, n_waf w ≤ n_waf w0) (λ w0, n_waf w ≤ n_waf w0));
    [done| |done].
  intros st0 w0 r0 w0' Hinv Hrun.
  assert (n_waf w ≤ n_waf w0') as Hgoal.
  { destruct (decide (40 < page_number st0)) as [Hceil|Hceil].
    { apply loop_body_cases in Hrun as (_ & _ & _ & Hbreak & _).
      by destruct (Hbreak Hceil) as [_ ->]. }
    apply loop_body_trace in Hrun as (renew & h & _ & Hn & _); lia. }
  by destruct r0 as [[?|?]| |].
Qed.

(** X12. The three tests of [update_vehicles] keep [None] away from
    [str.replace]: with the three globals set, a first call of
    [get_vehicles_query] fails only when the template cannot be read,
    with [OSError] and before the browser is started or a request sent;
    when the template is read, the query is built from the three globals
    and a lead id and memoised, and the WAF bypass is run. *)
Theorem set_globals_let_the_query_build (E : Env) fuel w r w' :
  PyStr.opt_truthy (MODEL E) = true →
  PyStr.opt_truthy (ZIPCODE E) = true →
  PyStr.opt_truthy (DISTANCE E) = true →
  query_cache w = None →
  update_vehicles E fuel w = (r, w') →
  match env_file E (n_file w) with
  | None => r = Raised OSError ∧ w' = log EvReadQuery (count_file w)
  | Some text =>
      ∃ zipcode model distance,
        ZIPCODE E = Some zipcode ∧ MODEL E = Some model
        ∧ DISTANCE E = Some distance
        ∧ query_cache w'
          = Some (PyStr.replace "LEADIDUUID" (env_uuid4 E (n_uuid w))
                    (PyStr.replace "DISTANCEMILES" distance
                       (PyStr.replace "MODELCODE" model
                          (PyStr.replace "ZIPCODE" zipcode text))))
        ∧ S (n_waf w) ≤ n_waf w'
  end.
Proof.
  intros Hm Hz Hd Hcache. rewrite update_vehicles_run by done.
  apply opt_truthy_Some in Hm as [m Hm], Hz as [z Hz], Hd as [d Hd].
  rewrite get_all_pages_run. unfold get_vehicles_query, cache.
  rewrite Hcache, get_vehicles_query_body_run. cbv zeta.
  destruct (env_file E (n_file w)) as [text|]; [|by intros [= <- <-]].
  rewrite Hm, Hz, Hd. intros Hrun. exists z, m, d. split_and!; try done.
  - revert Hrun. simpl.
    destruct (env_waf E (n_waf w)) as [hdrs|].
    + destruct (while_true E _ _ _ _) as [r1 w1] eqn:Hloop.
      apply while_true_query_state in Hloop as [Hc _]. simpl in Hc.
      destruct r1 as [[|row rest]| |]; try (by intros [= <- <-]).
      destruct (env_to_json_raw E _); by intros [= <- <-].
    + by intros [= <- <-].
  - revert Hrun. simpl.
    destruct (env_waf E (n_waf w)) as [hdrs|].
    + destruct (while_true E _ _ _ _) as [r1 w1] eqn:Hloop.
      apply while_true_bypass_count in Hloop. simpl in Hloop.
      destruct r1 as [[|row rest]| |]; try (by intros [= <- <-]).
      destruct (env_to_json_raw E _); by intros [= <- <-].
    + by intros [= <- <-].
Qed.

Lemma set_globals_let_the_query_build_witness :
  (update_vehicles Sample.no_template 41 initial_world).1 = Raised OSError
  ∧ (update_vehicles Sample.no_template 41 initial_world).2
    = log EvReadQuery (count_file initial_world).
Proof.
  refine (set_globals_let_the_query_build Sample.no_template 41 initial_world
            _ _ _ _ _ _ _).
  - reflexivity.
  - reflexivity.
  - reflexivity.
  - reflexivity.
  - apply surjective_pairing.
Defined.

(** With the template in place the query is built and memoised. *)
Example three_pages_query_built :
  query_cache (update_vehicles Sample.three_pages 41 initial_world).2
  = Some Stub.query.
Proof. vm_compute; reflexivity. Qed.

Lemma written_renew renew tr :
  renew = [] ∨ renew = [EvWaf] → written (renew ++ tr) = written tr.
Proof. by intros [->| ->]. Qed.

Lemma get_all_pages_writes_nothing (E : Env) fuel w r w' :
  get_all_pages E fuel w = (r, w') → written (trace w') = written (trace w).
Proof.
  rewrite get_all_pages_run.
  destruct (get_vehicles_query E w) as [r1 w1] eqn:Hquery.
  apply get_vehicles_query_trace in Hquery as (_ & _ & _ & Htr).
  assert (Hw1 : written (trace w1) = written (trace w))
    by (by destruct Htr as [->| ->]).
  destruct r1 as [query| |]; [|by intros [= <- <-]..].
  destruct (env_waf E (n_waf w1)) as [hdrs|]; [|by intros [= <- <-]].
  intros Hloop.
  apply (while_true_run_ind E query
    (λ _ w0, written (trace w0) = written (trace w))
    (λ w0, written (trace w0) = written (trace w))) in Hloop; [done|done| |done].
  intros st w0 r0 w0' Hinv Hrun.
  assert (written (trace w0') = written (trace w)) as Hgoal.
  { destruct (decide (40 < page_number st)) as [Hceil|Hceil].
    { apply loop_body_cases in Hrun as (_ & _ & _ & Hbreak & _).
      by destruct (Hbreak Hceil) as [_ ->]. }
    apply loop_body_trace in Hrun as (renew & h & Hrenew & _ & Hcases); [|lia].
    apply renew_cases in Hrenew.
    destruct Hcases as [(_ & _ & -> & _)|(_ & pause & -> & Hpause)].
    - by rewrite written_renew.
    - destruct Hpause as [[-> _]|[-> _]]; simpl; by rewrite written_renew. }
  by destruct r0 as [[?|?]| |].
Qed.

(** X13. With the three globals set, what [update_vehicles] writes is
    fixed by the outcome of the crawl, which itself writes nothing. A
    crawl that raises or returns no row leaves nothing written, and its
    outcome is that of [update_vehicles]. A frame with rows, which has
    one row per VIN, goes to [to_json_raw]; when that has written its
    file the same frame goes to [to_csv_simple]; when it raises, its
    exception ends [update_vehicles] and [to_csv_simple] is not called.
    An exception of [to_csv_simple] ends [update_vehicles] as well. *)
Theorem update_vehicles_writes (E : Env) fuel w r1 w1 r w' :
  PyStr.opt_truthy (MODEL E) = true →
  PyStr.opt_truthy (ZIPCODE E) = true →
  PyStr.opt_truthy (DISTANCE E) = true →
  get_all_pages E fuel w = (r1, w1) →
  update_vehicles E fuel w = (r, w') →
  match r1 with
  | Returned [] =>
      r = Returned tt ∧ w' = w1 ∧ written (trace w') = written (trace w)
  | Returned d =>
      NoDup (vins d)
      ∧ match env_to_json_raw E d, env_to_csv_simple E d with
        | Some e, _ =>
            r = Raised e
            ∧ written (trace w') = EvToJsonRaw d :: written (trace w)
        | None, Some e =>
            r = Raised e
            ∧ written (trace w')
              = EvToCsvSimple d :: EvToJsonRaw d :: written (trace w)
        | None, None =>
            r = Returned tt
            ∧ written (trace w')
              = EvToCsvSimple d :: EvToJsonRaw d :: written (trace w)
        end
  | Raised e =>
      r = Raised e ∧ w' = w1 ∧ written (trace w') = written (trace w)
  | OutOfFuel =>
      r = OutOfFuel ∧ w' = w1 ∧ written (trace w') = written (trace w)
  end.
Proof.
  intros Hm Hz Hd Hcrawl. rewrite update_vehicles_run, Hcrawl by done.
  pose proof (get_all_pages_writes_nothing E _ _ _ _ Hcrawl) as Hnone.
  destruct r1 as [[|row d]|e|]; try (by intros [= <- <-]).
  intros Hrun. split.
  - revert Hcrawl. rewrite get_all_pages_run.
    destruct (get_vehicles_query E w) as [[query| |] w0]; try done.
    destruct (env_waf E (n_waf w0)) as [hdrs|]; [|done].
    apply (while_true_returns E query (reachable E query)
             (λ d, NoDup (vins d))).
    + intros st wa st' wb Hreach Hstep. by eapply reachable_continue.
    + intros st wa d0 wb Hreach Hstep.
      by apply (loop_body_frame E query _ _ _ _ d0 Hreach Hstep); right.
    + apply reachable_entry.
  - revert Hrun.
    destruct (env_to_json_raw E (row :: d)) as [e|];
      [|destruct (env_to_csv_simple E (row :: d)) as [e|]];
      intros [= <- <-]; simpl; by rewrite Hnone.
Qed.

Lemma update_vehicles_writes_witness :
  let d := [Stub.car_a; Stub.car_b; Stub.car_c] in
  let run := update_vehicles Sample.three_pages 41 initial_world in
  NoDup (vins d)
  ∧ run.1 = Returned tt
  ∧ written (trace run.2)
    = EvToCsvSimple d :: EvToJsonRaw d :: written (trace initial_world).
Proof.
  refine (update_vehicles_writes Sample.three_pages 41 initial_world
            (Returned [Stub.car_a; Stub.car_b; Stub.car_c]) _ _ _ _ _ _ _ _).
  - reflexivity.
  - reflexivity.
  - reflexivity.
  - vm_compute; reflexivity.
  - apply surjective_pairing.
Defined.

(** When the raw file cannot be written, the CSV writer is not called. *)
Example unwritable_raw_file_skips_csv :
  ∃ w',
    update_vehicles Sample.no_output_directory 41 initial_world
      = (Raised OSError, w')
    ∧ written (trace w') = [EvToJsonRaw [Stub.car_a; Stub.car_b; Stub.car_c]].
Proof. eexists. split; [vm_compute; reflexivity|done]. Qed.

(** A crawl whose first page is a challenge page ends without error and
    without output. *)
Example blocked_first_page_writes_nothing :
  ∃ w',
    update_vehicles (Stub.env (λ _, Stub.blocked) Stub.steady_clock) 41
      initial_world = (Returned tt, w')
    ∧ n_post w' = 1 ∧ written (trace w') = [].
Proof. eexists. split_and!; [vm_compute; reflexivity|done..]. Qed.

(** ** [format_options] without names *)

Lemma join_nonempty sep first rest :
  PyStr.truthy first = true → PyStr.join sep (first :: rest) ≠ "".
Proof. destruct first as [|c first]; [done|]. by destruct rest. Qed.

(** X14. [format_options] gives the empty string exactly when no entry
    has a truthy "marketingName" or "marketingLongName": for no entries
    at all, and for entries whose names are missing, null or empty. *)
Theorem format_options_empty_iff (options_raw : list OptionEntry) :
  format_options options_raw = ""
  ↔ ∀ item, item ∈ options_raw → entry_name item = None.
Proof.
  unfold format_options.
  destruct (sorted_spec (collect_options ∅ options_raw)) as (_ & _ & Hin).
  split.
  - intros Hempty item Hitem.
    destruct (entry_name item) as [name|] eqn:Hname; [|done].
    assert (Hmem : name ∈ sorted (collect_options ∅ options_raw)).
    { apply Hin, elem_of_collect_options. right. eauto. }
    destruct (sorted (collect_options ∅ options_raw)) as [|first rest] eqn:Hs;
      [by apply elem_of_nil in Hmem|].
    destruct (join_nonempty " | " first rest); [|done].
    assert (Hfirst : first ∈ collect_options ∅ options_raw)
      by (apply Hin; by left).
    apply elem_of_collect_options in Hfirst
      as [[]%elem_of_empty|(item' & _ & Hname')].
    by apply entry_name_truthy in Hname'.
  - intros Hnone.
    destruct (sorted (collect_options ∅ options_raw)) as [|first rest] eqn:Hs;
      [done|].
    assert (Hfirst : first ∈ collect_options ∅ options_raw)
      by (apply Hin; by left).
    apply elem_of_collect_options in Hfirst
      as [[]%elem_of_empty|(item' & Hitem' & Hname')].
    by rewrite (Hnone item' Hitem') in Hname'.
Qed.

Example format_options_of_nameless_entries :
  format_options [] = "" ∧ format_options [Stub.unnamed; Stub.unnamed] = "".
Proof. split; vm_compute; reflexivity. Qed.

(** ** The ETA column *)

Lemma split_scan_step sep c s :
  Csv.split_scan sep 0 (String c s)
  = if String.prefix sep (String c s)
    then (EmptyString,
          let (piece, pieces) := Csv.split_scan sep (String.length sep - 1) s in
          piece :: pieces)
    else let (piece, pieces) := Csv.split_scan sep 0 s in
         (String c piece, pieces).
Proof. done. Qed.

Lemma prefix_T c s :
  String.prefix "T" (String c s) = true ↔ String c EmptyString = "T".
Proof. rewrite String.prefix_correct. simpl. by destruct s. Qed.

Lemma split_T_first (s : string) :
  ((∃ time, s = (Csv.split_scan "T" 0 s).1 +:+ "T" +:+ time)
   ∨ s = (Csv.split_scan "T" 0 s).1)
  ∧ ∀ a b, (Csv.split_scan "T" 0 s).1 ≠ a +:+ "T" +:+ b.
Proof.
  induction s as [|c s [IHcut IHfree]].
  - split; [by right|]. intros [|? a] b; done.
  - rewrite split_scan_step.
    destruct (String.prefix "T" (String c s)) eqn:Hp.
    + apply prefix_T in Hp as [= ->]. simpl.
      split; [left; by exists s|]. intros [|? a] b; done.
    + destruct (Csv.split_scan "T" 0 s) as [piece pieces] eqn:Hs.
      simpl in IHcut, IHfree. simpl. split.
      * destruct IHcut as [[time ->]| ->]; [left; by exists time|by right].
      * intros [|c' a] b; simpl; intros [= -> Heq].
        -- by rewrite (proj2 (prefix_T _ s) eq_refl) in Hp.
        -- by apply (IHfree a b).
Qed.

Lemma eta_date_returns (dt : string) :
  Csv.eta_date dt = inr (Csv.split_scan "T" 0 dt).1.
Proof. unfold Csv.eta_date, Csv.split. by destruct (Csv.split_scan "T" 0 dt). Qed.

(** X15. The function applied to an ETA never raises and returns the
    part of the timestamp before its first "T": the timestamp is that
    part, then "T", then the rest, or, when it holds no "T", that part
    alone; the part returned holds no "T". *)
Theorem eta_date_cuts_at_first_T (dt : string) :
  ∃ date,
    Csv.eta_date dt = inr date
    ∧ ((∃ time, dt = date +:+ "T" +:+ time) ∨ dt = date)
    ∧ ∀ a b, date ≠ a +:+ "T" +:+ b.
Proof.
  exists (Csv.split_scan "T" 0 dt).1.
  split; [apply eta_date_returns|apply split_T_first].
Qed.

Example eta_date_of_timestamp :
  Csv.eta_date "2023-09-12T00:00:00.000Z" = inr "2023-09-12"
  ∧ Csv.eta_date "2023-09-12" = inr "2023-09-12"
  ∧ Csv.eta_date "" = inr "".
Proof. done. Qed.

Lemma apply_eta_date (ETA : list (option string)) :
  existsb Csv.isnull ETA = false →
  ∃ out,
    Csv.apply (λ cell, match cell with
                       | Some dt => Csv.eta_date dt
                       | None => inl Csv.AttributeError
                       end) ETA = inr out
    ∧ Forall2 (λ cell date, ∃ dt, cell = Some dt ∧ Csv.eta_date dt = inr date)
        ETA out.
Proof.
  induction ETA as [|[dt|] ETA IH]; simpl; [by eauto|intros Hnull|done].
  destruct (IH Hnull) as (out & -> & Hall).
  rewrite (eta_date_returns dt). eexists (_ :: out). split; [done|].
  constructor; [|done]. exists dt. split; [done|apply eta_date_returns].
Qed.

(** X16. The ETA column is treated as a whole and never raises. With a
    null anywhere in it, the nulls become "Unknown" and every other ETA
    is left as it was, time of day included; only when no ETA is null is
    each one cut down to its date. *)
Theorem eta_column_all_or_nothing (ETA : list (option string)) :
  ∃ out,
    Csv.eta_column ETA = inr out
    ∧ length out = length ETA
    ∧ (None ∈ ETA →
       ∀ i, (ETA !! i = Some None → out !! i = Some "Unknown")
            ∧ ∀ dt, ETA !! i = Some (Some dt) → out !! i = Some dt)
    ∧ (None ∉ ETA →
       ∀ i dt, ETA !! i = Some (Some dt) →
         ∃ date, out !! i = Some date ∧ Csv.eta_date dt = inr date).
Proof.
  unfold Csv.eta_column.
  destruct (existsb Csv.isnull ETA) eqn:Hnull.
  - exists (Csv.fillna "Unknown" <$> ETA). split_and!; [done|by rewrite length_fmap| |].
    + intros _ i. rewrite list_lookup_fmap.
      split; [by intros ->|]. by intros dt ->.
    + intros Hnone. apply existsb_exists in Hnull as ([dt|] & Hin & Hcell);
        [done|]. by apply list_elem_of_In in Hin.
  - destruct (apply_eta_date ETA Hnull) as (out & -> & Hall).
    exists out. split_and!; [done|by apply Forall2_length in Hall| |].
    + intros Hnone. apply list_elem_of_In in Hnone.
      assert (existsb Csv.isnull ETA = true) as Hyes
        by (apply existsb_exists; by exists None).
      congruence.
    + intros _ i dt Hi.
      destruct (Forall2_lookup_l _ _ _ _ _ Hall Hi) as (date & Hout & dt' & [= <-] & Hdate).
      eauto.
Qed.

Example eta_column_with_a_null :
  Csv.eta_column [Some "2023-09-12T00:00:00.000Z"; None]
  = inr ["2023-09-12T00:00:00.000Z"; "Unknown"]
  ∧ Csv.eta_column [Some "2023-09-12T00:00:00.000Z"; Some "2023-10-02T00:00:00.000Z"]
    = inr ["2023-09-12"; "2023-10-02"].
Proof. done. Qed.

(** ** [WAFBypass] *)

Lemma endswith_spec (s suffix : string) :
  WAF.endswith s suffix = true ↔ ∃ base, s = base +:+ suffix.
Proof.
  induction s as [|c s IH].
  - change (WAF.endswith "" suffix) with (String.eqb "" suffix || false).
    rewrite orb_false_r, String.eqb_eq. split.
    + intros <-. by exists "".
    + intros [[|? base] Hbase]; [done|discriminate].
  - change (WAF.endswith (String c s) suffix)
      with (String.eqb (String c s) suffix || WAF.endswith s suffix).
    rewrite orb_true_iff, String.eqb_eq, IH. split.
    + intros [<-|[base ->]]; [by exists ""|by exists (String c base)].
    + intros [[|c' base] Hbase]; [by left|].
      injection Hbase as <- ->. right. by exists base.
Qed.

Lemma intercept_request_spec (self : WAF.Self) (request : WAF.Request) :
  (WAF.graphql_xhr request
   ∧ WAF.intercept_request self request
     = (Some (WAF.request_headers request), request))
  ∨ (¬ WAF.graphql_xhr request
     ∧ WAF.intercept_request self request = (self, request)).
Proof.
  unfold WAF.intercept_request, WAF.graphql_xhr.
  destruct (String.eqb_spec (WAF.resource_type request) "xhr") as [Hxhr|Hxhr];
    simpl; [|right; split; [by intros [? _]|done]].
  destruct (WAF.endswith (WAF.url request) "/graphql") eqn:Hurl.
  - left. split; [|done]. split; [done|]. by apply endswith_spec.
  - right. split; [|done]. intros [_ Hbase%endswith_spec]. congruence.
Qed.

Lemma get_headers_spec (self : WAF.Self) (session : WAF.Session) :
  ((∀ request, request ∈ WAF.observed session → ¬ WAF.graphql_xhr request)
   ∧ (WAF.get_headers self session).2 = self)
  ∨ ∃ before request after,
      WAF.observed session = before ++ request :: after
      ∧ WAF.graphql_xhr request
      ∧ (∀ later, later ∈ after → ¬ WAF.graphql_xhr later)
      ∧ (WAF.get_headers self session).2 = Some (WAF.request_headers request).
Proof.
  unfold WAF.get_headers. simpl. generalize (WAF.observed session). clear session.
  intros requests. induction requests as [|request requests IH] using rev_ind.
  - left. split; [|done]. by intros request ?%elem_of_nil.
  - rewrite foldl_app. simpl.
    destruct (intercept_request_spec
                (foldl (λ self request, (WAF.intercept_request self request).1)
                   self requests) request) as [[Hyes ->]|[Hno ->]]; simpl.
    + right. exists requests, request, []. split_and!; try done.
      by intros later ?%elem_of_nil.
    + destruct IH as [[Hnone ->]|(before & hit & after & -> & Hhit & Hafter & ->)].
      * left. split; [|done]. intros r [Hr| ->%list_elem_of_singleton]%elem_of_app;
          [by apply Hnone|done].
      * right. exists before, hit, (after ++ [request]).
        split_and!; [by rewrite <- (assoc_L _)|done| |done].
        intros later [Hl| ->%list_elem_of_singleton]%elem_of_app;
          [by apply Hafter|done].
Qed.

(** X17. On a new object, [run] returns the headers of the last request
    of the session that is an "xhr" to a URL ending in "/graphql"; when
    the session shows no such request, reading [valid_headers] fails
    with [AttributeError]; and a session that raises lets its exception
    through. *)
Theorem waf_run_returns_last_graphql_headers (session : WAF.Session) :
  (WAF.completes session = false → (WAF.run None session).1 = inl WAF.PlaywrightError)
  ∧ (WAF.completes session = true →
     ((WAF.run None session).1 = inl WAF.AttributeError
      ↔ ∀ request, request ∈ WAF.observed session → ¬ WAF.graphql_xhr request)
     ∧ ∀ hdrs, (WAF.run None session).1 = inr hdrs
         ↔ ∃ before request after,
             WAF.observed session = before ++ request :: after
             ∧ WAF.graphql_xhr request
             ∧ (∀ later, later ∈ after → ¬ WAF.graphql_xhr later)
             ∧ hdrs = WAF.request_headers request).
Proof.
  unfold WAF.run.
  pose proof (get_headers_spec None session) as Hspec.
  destruct (WAF.get_headers None session) as [status self] eqn:Hget.
  assert (Hstatus : status = if WAF.completes session then inr tt
                             else inl WAF.PlaywrightError).
  { unfold WAF.get_headers in Hget. by injection Hget as <- _. }
  simpl in Hspec. split.
  - intros Hc. rewrite Hc in Hstatus. by subst status.
  - intros Hc. rewrite Hc in Hstatus. subst status.
    destruct Hspec as [[Hnone ->]|(before & hit & after & Hobs & Hhit & Hafter & ->)];
      simpl.
    + split; [done|]. intros hdrs. split; [done|].
      intros (b & r & a & Hobs & Hr & _). destruct (Hnone r); [|done].
      rewrite Hobs, elem_of_app, elem_of_cons. eauto.
    + split.
      * split; [done|]. intros Hnone. destruct (Hnone hit); [|done].
        rewrite Hobs, elem_of_app, elem_of_cons. eauto.
      * intros hdrs. split.
        -- intros [= <-]. by exists before, hit, after.
        -- intros (b & r & a & Hobs' & Hr & Ha & ->). f_equal.
           assert (Hsame : before = b ∧ hit = r ∧ after = a);
             [|by destruct Hsame as (_ & -> & _)].
           rewrite Hobs in Hobs'. clear Hobs.
           revert b Hobs'. induction before as [|x before IH]; intros [|y b] Heq.
           ++ by injection Heq as -> ->.
           ++ injection Heq as -> ->. destruct (Hafter r); [|done].
              rewrite elem_of_app, elem_of_cons. eauto.
           ++ injection Heq as -> <-. destruct (Ha hit); [|done].
              rewrite elem_of_app, elem_of_cons. eauto.
           ++ injection Heq as -> Heq. destruct (IH b Heq) as (-> & -> & ->). done.
Qed.

Example waf_run_on_a_session :
  (WAF.run None {| WAF.observed := [Sample.stylesheet; Sample.graphql_call;
                                    Sample.stylesheet; Sample.later_graphql_call;
                                    Sample.stylesheet];
                   WAF.completes := true |}).1
  = inr [("x-aws-waf-token", "token-b")]
  ∧ (WAF.run None {| WAF.observed := [Sample.stylesheet];
                     WAF.completes := true |}).1
    = inl WAF.AttributeError.
Proof. done. Qed.

(** X18. An object that already holds headers never fails with
    [AttributeError]: when a later session of it shows no request to
    record, [run] returns the headers of the earlier session again. *)
Theorem waf_run_reuses_old_headers (old : Headers) (session : WAF.Session) :
  WAF.completes session = true →
  (∀ request, request ∈ WAF.observed session → ¬ WAF.graphql_xhr request) →
  WAF.run (Some old) session = (inr old, Some old).
Proof.
  intros Hc Hnone. unfold WAF.run.
  destruct (get_headers_spec (Some old) session)
    as [[_ Hself]|(before & hit & after & Hobs & Hhit & _)].
  - destruct (WAF.get_headers (Some old) session) as [status self] eqn:Hget.
    simpl in Hself. subst self.
    unfold WAF.get_headers in Hget. rewrite Hc in Hget. by injection Hget as <- _.
  - destruct (Hnone hit); [|done]. rewrite Hobs, elem_of_app, elem_of_cons. eauto.
Qed.

Lemma waf_run_reuses_old_headers_witness :
  WAF.run (Some [("x-aws-waf-token", "token-a")])
    {| WAF.observed := [Sample.stylesheet]; WAF.completes := true |}
  = (inr [("x-aws-waf-token", "token-a")],
     Some [("x-aws-waf-token", "token-a")]).
Proof.
  apply (waf_run_reuses_old_headers [("x-aws-waf-token", "token-a")]
           {| WAF.observed := [Sample.stylesheet]; WAF.completes := true |}).
  - reflexivity.
  - intros request ->%list_elem_of_singleton [Hxhr _]. discriminate.
Defined.

(** ** [random_user_agent] *)

Lemma all_ua_errors (user_agents : list Config.UserAgent) e :
  Config.all_ua user_agents = inl e → e = Config.KeyError.
Proof.
  induction user_agents as [|x rest IH]; simpl; [done|].
  destruct (Config.ua x); [|by intros [= <-]].
  destruct (Config.all_ua rest) as [e'|agents]; [|done].
  intros [= <-]. by apply IH.
Qed.

Lemma all_ua_KeyError (user_agents : list Config.UserAgent) :
  Config.all_ua user_agents = inl Config.KeyError
  ↔ ∃ x, x ∈ user_agents ∧ Config.ua x = None.
Proof.
  induction user_agents as [|x rest IH]; simpl.
  - split; [done|]. by intros (x & ?%elem_of_nil & _).
  - destruct (Config.ua x) as [agent|] eqn:Hx.
    + destruct (Config.all_ua rest) as [e|agents] eqn:Hrest.
      * apply all_ua_errors in Hrest as ->. split; [|done]. intros _.
        destruct (proj1 IH eq_refl) as (y & Hy & Hnone).
        exists y. split; [by right|done].
      * split; [done|].
        intros (y & [->|Hy]%elem_of_cons & Hnone); [congruence|].
        assert (Hno : ∃ x, x ∈ rest ∧ Config.ua x = None) by eauto.
        by apply IH in Hno.
    + split; [|done]. intros _. exists x. split; [by left|done].
Qed.

Lemma all_ua_inr (user_agents : list Config.UserAgent) agents :
  Config.all_ua user_agents = inr agents →
  Forall2 (λ x agent, Config.ua x = Some agent) user_agents agents.
Proof.
  revert agents. induction user_agents as [|x rest IH]; simpl; intros agents.
  - intros [= <-]. constructor.
  - destruct (Config.ua x) as [agent|] eqn:Hx; [|done].
    destruct (Config.all_ua rest) as [e|agents']; [done|].
    intros [= <-]. constructor; [done|by apply IH].
Qed.

(** X19. Whatever order the shuffle leaves the entries in,
    [random_user_agent] returns the "ua" of one of the entries of the
    file. It fails with [IndexError] exactly when the file holds an
    empty list, and with [KeyError] exactly when some entry, chosen or
    not, has no "ua". *)
Theorem random_user_agent_outcomes
    (shuffle : list Config.UserAgent → list Config.UserAgent)
    (user_agents : list Config.UserAgent) :
  (∀ entries, shuffle entries ≡ₚ entries) →
  let outcome := Config.random_user_agent shuffle (Some user_agents) in
  (outcome = inl Config.IndexError ↔ user_agents = [])
  ∧ (outcome = inl Config.KeyError
     ↔ ∃ x, x ∈ user_agents ∧ Config.ua x = None)
  ∧ outcome ≠ inl Config.OSError
  ∧ ∀ agent, outcome = inr agent →
      ∃ x, x ∈ user_agents ∧ Config.ua x = Some agent.
Proof.
  intros Hperm outcome. subst outcome. unfold Config.random_user_agent.
  specialize (Hperm user_agents).
  assert (Hkey : Config.all_ua (shuffle user_agents) = inl Config.KeyError
                 ↔ ∃ x, x ∈ user_agents ∧ Config.ua x = None).
  { rewrite all_ua_KeyError. by setoid_rewrite Hperm. }
  destruct (Config.all_ua (shuffle user_agents)) as [e|agents] eqn:Hall.
  - apply all_ua_errors in Hall as Hkind. subst e. split_and!; try done.
    + split; [done|]. intros ->. apply Permutation_nil_r in Hperm.
      rewrite Hperm in Hall. done.
    + split; [intros _; by apply Hkey|done].
  - apply all_ua_inr in Hall. destruct agents as [|agent agents].
    + apply Forall2_nil_inv_r in Hall. rewrite Hall in Hperm.
      apply Permutation_nil_l in Hperm. subst user_agents.
      split_and!; try done.
      split; [done|]. by intros (x & ?%elem_of_nil & _).
    + split_and!; try done.
      * split; [done|]. intros ->. apply Permutation_nil_r in Hperm.
        rewrite Hperm in Hall. by apply Forall2_nil_inv_l in Hall.
      * split; [done|]. intros Hnone%Hkey. done.
      * intros ? [= <-]. apply Forall2_cons_inv_r in Hall
          as (x & rest & Hx & _ & Hshuffled).
        exists x. split; [|done]. rewrite <- Hperm, Hshuffled. by left.
Qed.

Lemma random_user_agent_outcomes_witness :
  ∃ x, x ∈ [Sample.chrome; Sample.firefox]
       ∧ Config.ua x = Some "Mozilla/5.0 Firefox/115.0".
Proof.
  apply (random_user_agent_outcomes reverse [Sample.chrome; Sample.firefox]).
  - intros entries. apply reverse_Permutation.
  - reflexivity.
Defined.

(** ** No fetched record is lost *)

Section Complete.

Variable E : Env.
Variable query : string.

(** A pass that fetches and does not raise merges what the response to
    its request carries. *)
Lemma loop_body_merges st w x w' :
  loop_body E query st w = (Returned x, w') →
  page_number st ≤ 40 →
  ∃ pause renew hdrs,
    (renew = [] ∨ renew = [EvWaf])
    ∧ (pause = [] ∨ pause = [EvSleep 10])
    ∧ trace w' = pause ++ EvPost (page_request query (page_number st)) hdrs
                 :: renew ++ trace w
    ∧ n_post w' = S (n_post w)
    ∧ ∀ res records,
        env_post E (n_post w) (page_request query (page_number st)) hdrs
          = HttpResponse (LocateVehiclesByZip (Some res)) →
        vehicleSummary res = Some records →
        ∀ row, row ∈ records →
          vin row ∈ vins (match x with inl st' => df st' | inr d => d end).
Proof.
  intros Hrun Hpage. rewrite loop_body_run in Hrun.
  rewrite (proj2 (Nat.ltb_ge 40 (page_number st))) in Hrun by done.
  rewrite refresh_waf_run in Hrun. cbv zeta in Hrun.
  assert (Hcover : ∀ result0 res records row,
    result0 = Some res → vehicleSummary res = Some records → row ∈ records →
    vin row ∈ vins (merge_page (df st)
                      (if has_vehicleSummary result0 then result0 else None))).
  { intros result0 res records row -> Hrecords Hrow. simpl. rewrite Hrecords.
    apply merge_page_covers. simpl. rewrite Hrecords.
    by apply list_elem_of_fmap_2. }
  destruct (refresh_due _).
  - destruct (env_waf E (n_waf w)) as [new_headers|]; [|done].
    rewrite query_toyota_run in Hrun. cbv zeta in Hrun. simpl in Hrun.
    fold (page_request query (page_number st)) in Hrun.
    destruct (env_post E _ _ _) as [|[|result0]] eqn:Hpost; simpl in Hrun;
      [done|..].
    all: destruct (_ =? _); injection Hrun as <- <-; simpl;
      [exists [], [EvWaf], new_headers|exists [EvSleep 10], [EvWaf], new_headers];
      (split_and!; [by right|by eauto|done|done|]);
      intros res records Heq Hrecords row Hrow; rewrite Hpost in Heq;
      simplify_eq; by eapply Hcover.
  - rewrite query_toyota_run in Hrun. cbv zeta in Hrun. simpl in Hrun.
    fold (page_request query (page_number st)) in Hrun.
    destruct (env_post E _ _ _) as [|[|result0]] eqn:Hpost; simpl in Hrun;
      [done|..].
    all: destruct (_ =? _); injection Hrun as <- <-; simpl;
      [exists [], [], (headers st)|exists [EvSleep 10], [], (headers st)];
      (split_and!; [by left|by eauto|done|done|]);
      intros res records Heq Hrecords row Hrow; rewrite Hpost in Heq;
      simplify_eq; by eapply Hcover.
Qed.

Lemma responses_renew base renew tr :
  renew = [] ∨ renew = [EvWaf] →
  responses E base (renew ++ tr) = responses E base tr.
Proof. by intros [->| ->]. Qed.

End Complete.

(** X20. No fetched record is lost: the frame that [get_all_pages]
    returns holds the VIN of every record of every "vehicleSummary" list
    with which a request of the run was answered. *)
Theorem crawl_keeps_every_fetched_vin (E : Env) fuel w d w' :
  get_all_pages E fuel w = (Returned d, w') →
  ∃ new,
    trace w' = new ++ trace w
    ∧ ∀ res records row,
        HttpResponse (LocateVehiclesByZip (Some res)) ∈ responses E (n_post w) new →
        vehicleSummary res = Some records →
        row ∈ records →
        vin row ∈ vins d.
Proof.
  rewrite get_all_pages_run.
  destruct (get_vehicles_query E w) as [r1 w1] eqn:Hquery.
  apply get_vehicles_query_trace in Hquery as (_ & _ & Hn1 & Htr1).
  destruct r1 as [query| |]; [|done..].
  destruct (env_waf E (n_waf w1)) as [hdrs|]; [|done].
  set (covered (frame : DataFrame) (new : list Event) :=
         ∀ res records row,
           HttpResponse (LocateVehiclesByZip (Some res))
             ∈ responses E (n_post w) new →
           vehicleSummary res = Some records →
           row ∈ records → vin row ∈ vins frame).
  set (I := λ (st : Locals) (w0 : World),
         reachable E query st w0
         ∧ ∃ new, trace w0 = new ++ trace w
                  ∧ n_post w0 = n_post w + length (posted new)
                  ∧ covered (df st) new).
  assert (Hloop : ∀ fuel st w0 d w',
    I st w0 → while_true E fuel query st w0 = (Returned d, w') →
    ∃ new, trace w' = new ++ trace w ∧ covered d new).
  { clear fuel d w'. intros fuel. induction fuel as [|fuel IH];
      intros st w0 d w' Hinv; [done|].
    rewrite while_true_S.
    destruct (loop_body E query st w0) as [r0 w0'] eqn:Hrun.
    destruct Hinv as (Hreach & new & Hnew & Hcount & Hcov).
    destruct r0 as [x| |]; [|done..].
    destruct (decide (40 < page_number st)) as [Hceil|Hceil].
    { apply loop_body_cases in Hrun as (_ & _ & _ & Hbreak & _).
      destruct (Hbreak Hceil) as [[= ->] ->]. intros [= <- <-]. eauto. }
    pose proof (loop_body_merges E query _ _ _ _ Hrun ltac:(lia))
      as (pause & renew & h & Hrenew & Hpause & Htr' & Hn' & Hfresh).
    assert (Hposted : posted (pause ++ EvPost (page_request query (page_number st)) h
                              :: renew ++ new)
                      = page_request query (page_number st) :: posted new).
    { destruct Hpause as [->| ->]; simpl; by rewrite posted_renew. }
    assert (Hcov' : ∀ frame,
      df st `prefix_of` frame →
      (∀ res records,
         env_post E (n_post w0) (page_request query (page_number st)) h
           = HttpResponse (LocateVehiclesByZip (Some res)) →
         vehicleSummary res = Some records →
         ∀ row, row ∈ records → vin row ∈ vins frame) →
      covered frame (pause ++ EvPost (page_request query (page_number st)) h
                     :: renew ++ new)).
    { intros frame [extra ->] Hhere res records row Hin Hrecords Hrow.
      assert (Hin' : HttpResponse (LocateVehiclesByZip (Some res))
                     ∈ env_post E (n_post w0)
                         (page_request query (page_number st)) h
                       :: responses E (n_post w) new).
      { revert Hin. destruct Hpause as [->| ->]; simpl;
          by rewrite responses_renew, posted_renew, <- Hcount. }
      apply elem_of_cons in Hin' as [Heq|Hold].
      - by eapply Hhere.
      - unfold vins. rewrite fmap_app, elem_of_app. left. by eapply Hcov. }
    destruct x as [st'|d0].
    - apply IH. split; [by eapply reachable_continue|].
      eexists. split_and!;
        [|by rewrite Hposted, Hn', Hcount; simpl; lia
         |apply Hcov'; [|exact Hfresh]].
      + rewrite Htr', Hnew. clear.
        by repeat (rewrite <- app_assoc || rewrite <- app_comm_cons).
      + apply (loop_body_frame E query _ _ _ _ (df st') Hreach Hrun). eauto.
    - intros [= <- <-]. eexists. split; [|apply Hcov'; [|exact Hfresh]].
      + rewrite Htr', Hnew. clear.
        by repeat (rewrite <- app_assoc || rewrite <- app_comm_cons).
      + by apply (loop_body_frame E query _ _ _ _ d0 Hreach Hrun); right. }
  assert (Hpre : ∃ pre, (pre = [] ∨ pre = [EvReadQuery])
                        ∧ trace w1 = pre ++ trace w).
  { destruct Htr1 as [->| ->]; [exists []|exists [EvReadQuery]]; eauto. }
  destruct Hpre as (pre & Hpre & Htr1').
  intros Hrun. eapply Hloop; [|exact Hrun].
  split; [apply reachable_entry|]. exists (EvWaf :: pre). simpl.
  rewrite Htr1'. split_and!; [done| |].
  - rewrite Hn1. by destruct Hpre as [->| ->]; simpl; lia.
  - intros res records row Hin.
    by destruct Hpre as [->| ->]; apply elem_of_nil in Hin.
Qed.

Lemma crawl_keeps_every_fetched_vin_witness :
  ∃ new,
    trace (get_all_pages Stub.same_ids_twice 41 initial_world).2
      = new ++ trace initial_world
    ∧ ∀ res records row,
        HttpResponse (LocateVehiclesByZip (Some res))
          ∈ responses Stub.same_ids_twice (n_post initial_world) new →
        vehicleSummary res = Some records →
        row ∈ records →
        vin row ∈ vins [Stub.car_a; Stub.car_b].
Proof.
  refine (crawl_keeps_every_fetched_vin Stub.same_ids_twice 41 initial_world
            [Stub.car_a; Stub.car_b] _ _).
  vm_compute; reflexivity.
Defined.

(** The answers a crawl got, read off its trace. *)
Example responses_of_a_crawl :
  responses Stub.same_ids_twice 0
    (trace (get_all_pages Stub.same_ids_twice 41 initial_world).2)
  = [Stub.page [Stub.car_b; Stub.car_a_moved];
     Stub.page [Stub.car_a; Stub.car_b]].
Proof. vm_compute. reflexivity. Qed.
